(** * CAN update scripts: the handshake wait and the update cycle

    A shallow embedding of the two script variants of the repository,
    [can-update-script.py] (acknowledgement by source address 3, 120 s
    deadline) and [can-update-script (1).py] (acknowledgement by PGN mask,
    10 s deadline), and the properties of their CAN handshake.

    Conventions of the model.
    - Time is [time.time()] counted in whole milliseconds.  Only
      [bus.recv] and [time.sleep] let time pass; every other statement is
      instantaneous.
    - Everything outside the interpreter (the CAN bus, [subprocess.run],
      [os.chdir], the HTTP freshness check) answers from a script carried
      by the world; an exhausted script answers with success.
    - Every call that reaches the outside is appended to the world's
      [trace], together with its answer. *)

From Stdlib Require Import ZArith List String Bool Lia.
From Equations Require Import Equations.
Import ListNotations.
Open Scope string_scope.
Open Scope list_scope.
Open Scope Z_scope.

(** ** Exceptions and results *)

Inductive exn : Type :=
| CalledProcessError
| RequestException
| CanError
| IndexError
| OSError
| KeyboardInterrupt.

(** [except Exception] catches everything but [KeyboardInterrupt]. *)
Definition is_Exception (e : exn) : bool :=
  match e with
  | KeyboardInterrupt => false
  | _ => true
  end.

Definition is_CalledProcessError (e : exn) : bool :=
  match e with
  | CalledProcessError => true
  | _ => false
  end.

Definition is_KeyboardInterrupt (e : exn) : bool :=
  match e with
  | KeyboardInterrupt => true
  | _ => false
  end.

Inductive res (A : Type) : Type :=
| Ret (a : A)
| Raise (e : exn).
Arguments Ret {A} a.
Arguments Raise {A} e.

(** ** Data model *)

(** [can.Message]: identifier, extended flag, payload bytes. *)
Record Message : Type := mkMessage {
  arbitration_id : Z;
  is_extended_id : bool;
  data : list Z
}.

(** What the bus hands to a listening socket: a frame, or a failure of
    the [recv] call. *)
Inductive rx_event : Type :=
| RxFrame (m : Message)
| RxFault (e : exn).

Inductive command : Type :=
| Argv (args : list string)
| Shell (line : string).

(** Calls to the outside, with their answers.  [IoBusShutdown] is
    [bus.shutdown()], the explicit release of a bus handle. *)
Inductive io : Type :=
| IoCheck (now : Z) (r : res bool)
| IoBusOpen (r : option exn)
| IoBusSend (m : Message) (r : option exn)
| IoBusRecv (r : res (option Message))
| IoBusShutdown
| IoRun (c : command) (r : option exn)
| IoChdir (path : string) (r : option exn).

Inductive log_entry : Type :=
| LogInfo (msg : string)
| LogWarning (msg : string)
| LogError (msg : string) (detail : option exn).

Record World : Type := mkWorld {
  clock : Z;
  rx : list (Z * rx_event);
  checks : list (res bool);
  opens : list (option exn);
  sends : list (option exn);
  runs : list (option exn);
  chdirs : list (option exn);
  trace : list io;
  logs : list log_entry
}.

Definition set_clock (t : Z) (w : World) : World :=
  mkWorld t (rx w) (checks w) (opens w) (sends w) (runs w) (chdirs w)
          (trace w) (logs w).

Definition set_rx (q : list (Z * rx_event)) (w : World) : World :=
  mkWorld (clock w) q (checks w) (opens w) (sends w) (runs w) (chdirs w)
          (trace w) (logs w).

Definition set_checks (l : list (res bool)) (w : World) : World :=
  mkWorld (clock w) (rx w) l (opens w) (sends w) (runs w) (chdirs w)
          (trace w) (logs w).

Definition set_opens (l : list (option exn)) (w : World) : World :=
  mkWorld (clock w) (rx w) (checks w) l (sends w) (runs w) (chdirs w)
          (trace w) (logs w).

Definition set_sends (l : list (option exn)) (w : World) : World :=
  mkWorld (clock w) (rx w) (checks w) (opens w) l (runs w) (chdirs w)
          (trace w) (logs w).

Definition set_runs (l : list (option exn)) (w : World) : World :=
  mkWorld (clock w) (rx w) (checks w) (opens w) (sends w) l (chdirs w)
          (trace w) (logs w).

Definition set_chdirs (l : list (option exn)) (w : World) : World :=
  mkWorld (clock w) (rx w) (checks w) (opens w) (sends w) (runs w) l
          (trace w) (logs w).

Definition emit (e : io) (w : World) : World :=
  mkWorld (clock w) (rx w) (checks w) (opens w) (sends w) (runs w) (chdirs w)
          (trace w ++ [e]) (logs w).

Definition add_log (l : log_entry) (w : World) : World :=
  mkWorld (clock w) (rx w) (checks w) (opens w) (sends w) (runs w) (chdirs w)
          (trace w) (logs w ++ [l]).

(** ** The monad of the scripts: state and exceptions *)

Definition M (A : Type) : Type := World -> res A * World.

Definition ret {A : Type} (a : A) : M A := fun w => (Ret a, w).

Definition bind {A B : Type} (m : M A) (k : A -> M B) : M B :=
  fun w =>
    match m w with
    | (Ret a, w') => k a w'
    | (Raise e, w') => (Raise e, w')
    end.

Notation "x <- m ;; k" := (bind m (fun x => k))
  (at level 61, m at next level, right associativity).
Notation "m ;; k" := (bind m (fun _ => k))
  (at level 61, right associativity).

(** [try: body except <catches> as e: handler e]. *)
Definition try_except {A : Type}
    (body : M A) (catches : exn -> bool) (handler : exn -> M A) : M A :=
  fun w =>
    match body w with
    | (Raise e, w') => if catches e then handler e w' else (Raise e, w')
    | r => r
    end.

(** ** Primitives *)

Definition answer (r : option exn) : res unit :=
  match r with
  | None => Ret tt
  | Some e => Raise e
  end.

Definition time_time : M Z := fun w => (Ret (clock w), w).

Definition time_sleep (ms : Z) : M unit :=
  fun w => (Ret tt, set_clock (clock w + ms) w).

Definition logging (l : log_entry) : M unit :=
  fun w => (Ret tt, add_log l w).

(** [can.interface.Bus(channel='can0', bustype='socketcan')]. *)
Definition Bus : M unit :=
  fun w =>
    let r := hd None (opens w) in
    (answer r, emit (IoBusOpen r) (set_opens (tl (opens w)) w)).

Definition bus_send (msg : Message) : M unit :=
  fun w =>
    let r := hd None (sends w) in
    (answer r, emit (IoBusSend msg r) (set_sends (tl (sends w)) w)).

(** [bus.recv(timeout)]: the next event of the bus if it arrives within
    [timeout] (at once if it is already queued), [None] after [timeout]
    otherwise. *)
Definition bus_recv (timeout : Z) : M (option Message) :=
  fun w =>
    match rx w with
    | (t, ev) :: rest =>
        if t <=? clock w + timeout then
          let w' := set_rx rest (set_clock (Z.max (clock w) t) w) in
          match ev with
          | RxFrame m => (Ret (Some m), emit (IoBusRecv (Ret (Some m))) w')
          | RxFault e => (Raise e, emit (IoBusRecv (Raise e)) w')
          end
        else
          (Ret None,
           emit (IoBusRecv (Ret None)) (set_clock (clock w + timeout) w))
    | [] =>
        (Ret None,
         emit (IoBusRecv (Ret None)) (set_clock (clock w + timeout) w))
    end.

(** [subprocess.run(cmd, check=True)]. *)
Definition subprocess_run (c : command) : M unit :=
  fun w =>
    let r := hd None (runs w) in
    (answer r, emit (IoRun c r) (set_runs (tl (runs w)) w)).

Definition os_chdir (path : string) : M unit :=
  fun w =>
    let r := hd None (chdirs w) in
    (answer r, emit (IoChdir path r) (set_chdirs (tl (chdirs w)) w)).

(** ** Configuration shared by the two scripts *)

Definition LOCAL_DOWNLOAD_PATH : string := "/tmp/configurationFull.gciBin".
Definition DOWNLOAD_CHECK_INTERVAL : Z := 60 * 1000.

(** ** Functions that are the same in the two scripts *)

(** [check_and_download_file()] is HTTP and file-system input and output
    only.  The cycle consumes its answer: [True] (a new file was
    downloaded), [False] (up to date, or a [RequestException] caught
    inside), or an exception it does not catch. *)
Definition check_and_download_file : M bool :=
  fun w =>
    let r := hd (Ret false) (checks w) in
    (r, emit (IoCheck (clock w) r) (set_checks (tl (checks w)) w)).

Definition setup_can_interface : M bool :=
  try_except
    (subprocess_run (Argv ["sudo"; "ip"; "link"; "set"; "down"; "can0"]) ;;
     subprocess_run
       (Argv ["sudo"; "ip"; "link"; "set"; "can0"; "type"; "can";
              "bitrate"; "250000"]) ;;
     subprocess_run (Argv ["sudo"; "ip"; "link"; "set"; "up"; "can0"]) ;;
     logging (LogInfo "CAN interface configured successfully") ;;
     ret true)
    is_CalledProcessError
    (fun e =>
       logging (LogError "Failed to configure CAN interface" (Some e)) ;;
       ret false).

Definition send_can_message : M bool :=
  try_except
    (Bus ;;
     let msg := mkMessage 0x18FF14FA true [1; 0; 0; 0; 0; 0; 0; 0] in
     bus_send msg ;;
     logging (LogInfo "CAN message sent successfully") ;;
     ret true)
    is_Exception
    (fun e =>
       logging (LogError "Failed to send CAN message" (Some e)) ;;
       ret false).

(** How a statement of the loop body completes. *)
Inductive signal : Type :=
| Normal
| Continue
| Break.

(** [while True:] unrolled at most [n] times. *)
Fixpoint iterate (loop_body : M signal) (n : nat) : M unit :=
  match n with
  | O => ret tt
  | S n' =>
      s <- loop_body ;;
      match s with
      | Break => ret tt
      | _ => iterate loop_body n'
      end
  end.

(** Remember the equation of a case analysis (for the termination proof). *)
Definition inspect {A : Type} (a : A) : {b : A | a = b} := exist _ a eq_refl.

(** The loop of [wait_for_response] ends: every round takes an event off
    the bus or moves the clock towards the deadline. *)
Definition loop_measure (timeout start_time : Z) (w : World) : nat :=
  (List.length (rx w) + Z.to_nat (start_time + timeout - clock w))%nat.

Lemma bus_recv_none_measure (timeout start_time : Z) (w w1 : World) :
  (clock w - start_time <? timeout) = true ->
  bus_recv 1000 w = (Ret None, w1) ->
  (loop_measure timeout start_time w1 < loop_measure timeout start_time w)%nat.
Proof.
  intros Hc Hr. apply Z.ltb_lt in Hc.
  unfold bus_recv, loop_measure in *.
  destruct (rx w) as [|[t ev] rest] eqn:Hq.
  - inversion Hr; subst; cbn. rewrite Hq. cbn [List.length]. lia.
  - destruct (t <=? clock w + 1000).
    + destruct ev; discriminate.
    + inversion Hr; subst; cbn. rewrite Hq. cbn [List.length]. lia.
Qed.

Lemma bus_recv_some_measure (timeout start_time : Z) (w w1 : World)
      (msg : Message) :
  bus_recv 1000 w = (Ret (Some msg), w1) ->
  (loop_measure timeout start_time w1 < loop_measure timeout start_time w)%nat.
Proof.
  intros Hr. unfold bus_recv, loop_measure in *.
  destruct (rx w) as [|[t ev] rest] eqn:Hq; [discriminate|].
  destruct (t <=? clock w + 1000); [|discriminate].
  destruct ev; [|discriminate].
  inversion Hr; subst; cbn. lia.
Qed.

(** ** The text the two scripts share, with what differs as parameters

    [timeout] is the deadline of the wait, [accepts] the test applied to a
    received frame, [valid_response] the line logged on success, and
    [CAN_UPDATE_BUILD_DIR] the directory of the updater. *)

Module Script.
Section Script.

Variable timeout : Z.
Variable accepts : Message -> res bool.
Variable valid_response : Message -> log_entry.

(** The [while] loop of [wait_for_response] and the two statements after
    it, from the loop head on. *)
Equations? wait_loop (start_time : Z) (w : World) : res bool * World
  by wf (loop_measure timeout start_time w) lt :=
wait_loop start_time w with inspect (clock w - start_time <? timeout) := {
  | exist _ false _ =>
      (logging (LogWarning "No valid response received within timeout") ;;
       ret false) w
  | exist _ true Hc with inspect (bus_recv 1000 w) := {
      | exist _ (Raise e, w1) _ => (Raise e, w1)
      | exist _ (Ret None, w1) _ => wait_loop start_time w1
      | exist _ (Ret (Some msg), w1) _ with accepts msg := {
          | Raise e => (Raise e, w1)
          | Ret true => (logging (valid_response msg) ;; ret true) w1
          | Ret false => wait_loop start_time w1 } } }.
Proof.
  all: first [ eapply bus_recv_none_measure; eassumption
             | eapply bus_recv_some_measure; eassumption ].
Qed.

Definition wait_for_response : M bool :=
  try_except
    (Bus ;;
     start_time <- time_time ;;
     wait_loop start_time)
    is_Exception
    (fun e =>
       logging (LogError "Error while waiting for response" (Some e)) ;;
       ret false).

Variable CAN_UPDATE_BUILD_DIR : string.

Definition send_update_command : M bool :=
  try_except
    (os_chdir CAN_UPDATE_BUILD_DIR ;;
     time_sleep 1000 ;;
     let cmd :=
       String.append "qemu-aarch64-static ./can-update " LOCAL_DOWNLOAD_PATH in
     subprocess_run (Shell cmd) ;;
     logging (LogInfo "Update command executed successfully") ;;
     ret true)
    is_CalledProcessError
    (fun e =>
       logging (LogError "Failed to execute update command" (Some e)) ;;
       ret false).

(** The block guarded by [if check_and_download_file():] in [main]. *)
Definition update_process : M signal :=
  logging (LogInfo "New file detected, starting update process") ;;
  ok <- setup_can_interface ;;
  if negb ok then
    logging (LogError "Failed to setup CAN interface" None) ;; ret Continue
  else
  ok <- send_can_message ;;
  if negb ok then
    logging (LogError "Failed to send CAN message" None) ;; ret Continue
  else
  ok <- wait_for_response ;;
  if negb ok then
    logging (LogError "Did not receive valid response" None) ;; ret Continue
  else
  ok <- send_update_command ;;
  if negb ok then
    logging (LogError "Failed to send update command" None) ;; ret Continue
  else
  logging (LogInfo "Update process completed successfully") ;; ret Normal.

(** [if check_and_download_file(): ...] followed by
    [time.sleep(DOWNLOAD_CHECK_INTERVAL)], which a [continue] skips. *)
Definition check_update_sleep : M signal :=
  fresh <- check_and_download_file ;;
  s <- (if fresh then update_process else ret Normal) ;;
  match s with
  | Normal => time_sleep DOWNLOAD_CHECK_INTERVAL ;; ret Normal
  | _ => ret s
  end.

End Script.
End Script.

(** ** [can-update-script.py]: acknowledgement from source address 3 *)

Module CanUpdateScript.

Definition CAN_UPDATE_BUILD_DIR : string :=
  "/home/jackson/Desktop/can-update-project-2/build".

Definition timeout : Z := 120 * 1000.

(** [source_addr == 3 and msg.data[0] == 1]; indexing an empty payload
    raises [IndexError]. *)
Definition accepts (msg : Message) : res bool :=
  let source_addr := Z.land (arbitration_id msg) 0xFF in
  if source_addr =? 3 then
    match nth_error (data msg) 0 with
    | Some b => Ret (b =? 1)
    | None => Raise IndexError
    end
  else Ret false.

(** [f"Valid response received from SA: {source_addr}"], logged where
    [source_addr == 3]. *)
Definition valid_response (msg : Message) : log_entry :=
  LogInfo "Valid response received from SA: 3".

Definition wait_for_response : M bool :=
  Script.wait_for_response timeout accepts valid_response.

Definition send_update_command : M bool :=
  Script.send_update_command CAN_UPDATE_BUILD_DIR.

Definition loop_body : M signal :=
  try_except
    (logging (LogInfo "Checking for new file...") ;;
     Script.check_update_sleep timeout accepts valid_response
                               CAN_UPDATE_BUILD_DIR)
    (fun e => is_KeyboardInterrupt e || is_Exception e)
    (fun e =>
       if is_KeyboardInterrupt e then
         logging (LogInfo "Script stopped by user") ;; ret Break
       else
         logging (LogError "Unexpected error in main loop" (Some e)) ;;
         time_sleep DOWNLOAD_CHECK_INTERVAL ;;
         ret Normal).

Definition main (n : nat) : M unit :=
  logging (LogInfo "Starting CAN update script") ;;
  iterate loop_body n.

End CanUpdateScript.

(** ** [can-update-script (1).py]: acknowledgement by PGN mask *)

Module CanUpdateScript1.

Definition CAN_UPDATE_BUILD_DIR : string :=
  "/Desktop/can-update-project-2/build/".

Definition timeout : Z := 10 * 1000.

(** [(msg.arbitration_id & 0x1FFFF00) == 0x18FF14FB00], then
    [msg.data[0] == 1]. *)
Definition accepts (msg : Message) : res bool :=
  if Z.land (arbitration_id msg) 0x1FFFF00 =? 0x18FF14FB00 then
    match nth_error (data msg) 0 with
    | Some b => Ret (b =? 1)
    | None => Raise IndexError
    end
  else Ret false.

Definition valid_response (msg : Message) : log_entry :=
  LogInfo "Valid response received".

Definition wait_for_response : M bool :=
  Script.wait_for_response timeout accepts valid_response.

Definition send_update_command : M bool :=
  Script.send_update_command CAN_UPDATE_BUILD_DIR.

Definition loop_body : M signal :=
  try_except
    (Script.check_update_sleep timeout accepts valid_response
                               CAN_UPDATE_BUILD_DIR)
    is_Exception
    (fun e =>
       logging (LogError "Unexpected error in main loop" (Some e)) ;;
       time_sleep DOWNLOAD_CHECK_INTERVAL ;;
       ret Normal).

Definition main (n : nat) : M unit :=
  iterate loop_body n.

End CanUpdateScript1.

(** ** The two scripts side by side *)

Inductive script : Type :=
| SourceAddress   (* can-update-script.py *)
| PgnMask.        (* can-update-script (1).py *)

Definition timeout_of (s : script) : Z :=
  match s with
  | SourceAddress => CanUpdateScript.timeout
  | PgnMask => CanUpdateScript1.timeout
  end.

Definition accepts_of (s : script) : Message -> res bool :=
  match s with
  | SourceAddress => CanUpdateScript.accepts
  | PgnMask => CanUpdateScript1.accepts
  end.

Definition valid_response_of (s : script) : Message -> log_entry :=
  match s with
  | SourceAddress => CanUpdateScript.valid_response
  | PgnMask => CanUpdateScript1.valid_response
  end.

Definition build_dir_of (s : script) : string :=
  match s with
  | SourceAddress => CanUpdateScript.CAN_UPDATE_BUILD_DIR
  | PgnMask => CanUpdateScript1.CAN_UPDATE_BUILD_DIR
  end.

Definition wait_for_response_of (s : script) : M bool :=
  match s with
  | SourceAddress => CanUpdateScript.wait_for_response
  | PgnMask => CanUpdateScript1.wait_for_response
  end.

Definition loop_body_of (s : script) : M signal :=
  match s with
  | SourceAddress => CanUpdateScript.loop_body
  | PgnMask => CanUpdateScript1.loop_body
  end.

Definition main_of (s : script) : nat -> M unit :=
  match s with
  | SourceAddress => CanUpdateScript.main
  | PgnMask => CanUpdateScript1.main
  end.

(** The world in which the freshness check of a round runs: the first
    script logs a line before it. *)
Definition before_check (s : script) (w : World) : World :=
  match s with
  | SourceAddress => add_log (LogInfo "Checking for new file...") w
  | PgnMask => w
  end.

(** * The freshness check, [check_and_download_file]

    The rounds above take the answer of [check_and_download_file] from the
    world.  This part embeds its body, for both scripts, over the state it
    works on: the remote site, the local file and the wall clock.

    Time is counted in one fixed unit throughout this part (seconds, or
    any fraction of a second): a POSIX timestamp is a number of units, a
    naive [datetime] is the distance of its calendar reading from
    1970-01-01 00:00:00.
    What the interpreter and the system supply is a [Platform]: the offset
    of local time from UTC (taken as constant) and [datetime.strptime] for
    the format ['%a, %d %b %Y %H:%M:%S GMT'], which gives the calendar
    reading of a well-formed header and has no value ([ValueError]) on
    any other string. *)

Module Freshness.

Inductive error : Type :=
| RequestException
| TypeError
| ValueError
| OSError.

Inductive outcome (A : Type) : Type :=
| Done (a : A)
| Fails (e : error).
Arguments Done {A} a.
Arguments Fails {A} e.

Record Platform : Type := mkPlatform {
  utc_offset : Z;
  strptime : string -> option Z
}.

(** What the server answers: to [requests.head], the value of
    [headers.get('last-modified')]; to [requests.get], the status code and
    the content; or the exception the request raises. *)
Record Site : Type := mkSite {
  head_answer : outcome (option string);
  get_answer : outcome (Z * list Z)
}.

(** The file at [LOCAL_DOWNLOAD_PATH]. *)
Record File : Type := mkFile {
  mtime : Z;
  content : list Z
}.

Inductive request : Type :=
| Head (no_cache : bool)
| Get (no_cache : bool).

Inductive note : Type :=
| NoLastModified
| LocalFileModified (d : Z)
| RemoteFileModified (d : Z)
| DownloadingNew
| DownloadedNew
| UpToDate
| CheckFailed (e : error).

Record Host : Type := mkHost {
  now : Z;
  site : Site;
  file : option File;
  writable : bool;
  requests : list request;
  notes : list note
}.

Definition set_file (f : option File) (h : Host) : Host :=
  mkHost (now h) (site h) f (writable h) (requests h) (notes h).

Definition add_request (r : request) (h : Host) : Host :=
  mkHost (now h) (site h) (file h) (writable h) (requests h ++ [r]) (notes h).

Definition add_note (n : note) (h : Host) : Host :=
  mkHost (now h) (site h) (file h) (writable h) (requests h) (notes h ++ [n]).

Definition H (A : Type) : Type := Host -> outcome A * Host.

Definition hret {A : Type} (a : A) : H A := fun h => (Done a, h).

Definition hbind {A B : Type} (m : H A) (k : A -> H B) : H B :=
  fun h =>
    match m h with
    | (Done a, h') => k a h'
    | (Fails e, h') => (Fails e, h')
    end.

Declare Scope host_scope.
Notation "x <- m ;; k" := (hbind m (fun x => k))
  (at level 61, m at next level, right associativity) : host_scope.
Notation "m ;; k" := (hbind m (fun _ => k))
  (at level 61, right associativity) : host_scope.
Local Open Scope host_scope.

(** [try: body except requests.RequestException as e: handler e]. *)
Definition except_RequestException {A : Type}
    (body : H A) (handler : error -> H A) : H A :=
  fun h =>
    match body h with
    | (Fails RequestException, h') => handler RequestException h'
    | r => r
    end.

Definition logging_note (n : note) : H unit :=
  fun h => (Done tt, add_note n h).

(** [requests.head(GITHUB_RAW_URL, ...).headers.get('last-modified')]. *)
Definition requests_head (no_cache : bool) : H (option string) :=
  fun h => (head_answer (site h), add_request (Head no_cache) h).

(** [requests.get(GITHUB_RAW_URL, ...)]: status code and content. *)
Definition requests_get (no_cache : bool) : H (Z * list Z) :=
  fun h => (get_answer (site h), add_request (Get no_cache) h).

(** [response.raise_for_status()]. *)
Definition raise_for_status (status : Z) : H unit :=
  fun h =>
    if (400 <=? status) && (status <? 600)
    then (Fails RequestException, h)
    else (Done tt, h).

Definition os_path_exists : H bool :=
  fun h =>
    match file h with
    | Some _ => (Done true, h)
    | None => (Done false, h)
    end.

Definition os_path_getmtime : H Z :=
  fun h =>
    match file h with
    | Some f => (Done (mtime f), h)
    | None => (Fails OSError, h)
    end.

(** [with open(LOCAL_DOWNLOAD_PATH, 'wb') as f: f.write(data)]. *)
Definition write_file (data : list Z) : H unit :=
  fun h =>
    if writable h
    then (Done tt, set_file (Some (mkFile (now h) data)) h)
    else (Fails OSError, h).

(** [os.utime(LOCAL_DOWNLOAD_PATH, (t, t))]. *)
Definition os_utime (t : Z) : H unit :=
  fun h =>
    match file h with
    | Some f => (Done tt, set_file (Some (mkFile t (content f))) h)
    | None => (Fails OSError, h)
    end.

(** Truth value of [headers.get(...)]: [None] and the empty string are
    false. *)
Definition truthy (v : option string) : bool :=
  match v with
  | Some s => negb (String.eqb s "")
  | None => false
  end.

(** [datetime.strptime(v, '%a, %d %b %Y %H:%M:%S GMT')]. *)
Definition datetime_strptime (P : Platform) (v : option string) : H Z :=
  fun h =>
    match v with
    | None => (Fails TypeError, h)
    | Some s =>
        match strptime P s with
        | Some d => (Done d, h)
        | None => (Fails ValueError, h)
        end
    end.

(** [datetime.utcfromtimestamp(t)]. *)
Definition utcfromtimestamp (t : Z) : Z := t.

(** [datetime.fromtimestamp(t)]: local time. *)
Definition fromtimestamp (P : Platform) (t : Z) : Z := t + utc_offset P.

(** [d.timestamp()] of a naive [d], which is read as local time. *)
Definition timestamp (P : Platform) (d : Z) : Z := d - utc_offset P.

(** ** [can-update-script.py] *)

Module CanUpdateScript.

Definition check_and_download_file (P : Platform) : H bool :=
  except_RequestException
    (remote_modified <- requests_head true ;;
     needs_download <-
       (if negb (truthy remote_modified) then
          logging_note NoLastModified ;;
          hret true
        else
          there <- os_path_exists ;;
          if there then
            t <- os_path_getmtime ;;
            let local_modified := utcfromtimestamp t in
            remote_modified_dt <- datetime_strptime P remote_modified ;;
            logging_note (LocalFileModified local_modified) ;;
            logging_note (RemoteFileModified remote_modified_dt) ;;
            hret (local_modified <? remote_modified_dt)
          else hret true) ;;
     if needs_download then
       logging_note DownloadingNew ;;
       response <- requests_get true ;;
       raise_for_status (fst response) ;;
       write_file (snd response) ;;
       (if truthy remote_modified then
          remote_modified_dt <- datetime_strptime P remote_modified ;;
          os_utime (timestamp P remote_modified_dt)
        else hret tt) ;;
       logging_note DownloadedNew ;;
       hret true
     else
       logging_note UpToDate ;;
       hret false)
    (fun e => logging_note (CheckFailed e) ;; hret false).

End CanUpdateScript.

(** ** [can-update-script (1).py] *)

Module CanUpdateScript1.

Definition should_download (P : Platform) (remote_modified : option string)
  : H bool :=
  there <- os_path_exists ;;
  if negb there then hret true
  else
    t <- os_path_getmtime ;;
    let local_modified := fromtimestamp P t in
    remote_modified <- datetime_strptime P remote_modified ;;
    hret (local_modified <? remote_modified).

Definition check_and_download_file (P : Platform) : H bool :=
  except_RequestException
    (remote_modified <- requests_head false ;;
     there <- os_path_exists ;;
     download <-
       (if negb there then hret true
        else should_download P remote_modified) ;;
     if download then
       response <- requests_get false ;;
       raise_for_status (fst response) ;;
       write_file (snd response) ;;
       logging_note DownloadedNew ;;
       hret true
     else hret false)
    (fun e => logging_note (CheckFailed e) ;; hret false).

End CanUpdateScript1.

Definition check_and_download_file_of (s : script) : Platform -> H bool :=
  match s with
  | SourceAddress => CanUpdateScript.check_and_download_file
  | PgnMask => CanUpdateScript1.check_and_download_file
  end.

(** Whether [raise_for_status] lets a status code pass. *)
Definition status_ok (status : Z) : bool :=
  negb ((400 <=? status) && (status <? 600)).

(** A platform for the examples: one hour east of UTC, with the reading
    of one well-formed header. *)
Definition one_hour_east : Platform :=
  mkPlatform 3600
    (fun s =>
       if String.eqb s "Wed, 21 Oct 2015 07:28:00 GMT"
       then Some 1445412480
       else None).

(** A server that sends a last-modified header and the file. *)
Definition dated_site : Site :=
  mkSite (Done (Some "Wed, 21 Oct 2015 07:28:00 GMT")) (Done (200, [7; 7])).

(** A server that sends the file without a last-modified header. *)
Definition undated_site : Site :=
  mkSite (Done None) (Done (200, [7; 7])).

(** A host with nothing downloaded yet, at two seconds past midnight UTC
    on 2015-10-22. *)
Definition fresh_host (srv : Site) : Host :=
  mkHost 1445472002 srv None true [] [].

(** The same with an old download in place. *)
Definition stocked_host (srv : Site) : Host :=
  mkHost 1445472002 srv (Some (mkFile 1445400000 [1])) true [] [].

End Freshness.

(** * Vocabulary of the properties *)

(** ** Worlds along the wait *)

(** The world after [can.interface.Bus(...)]. *)
Definition opened (w : World) : World :=
  emit (IoBusOpen (hd None (opens w))) (set_opens (tl (opens w)) w).

(** The world after a [recv] that delivered the head of the queue. *)
Definition delivered (t : Z) (rest : list (Z * rx_event))
    (r : res (option Message)) (w : World) : World :=
  emit (IoBusRecv r) (set_rx rest (set_clock (Z.max (clock w) t) w)).

(** The world after a [recv] that timed out. *)
Definition idled (w : World) : World :=
  emit (IoBusRecv (Ret None)) (set_clock (clock w + 1000) w).

Definition deadline_warning : log_entry :=
  LogWarning "No valid response received within timeout".

Definition wait_error (e : exn) : log_entry :=
  LogError "Error while waiting for response" (Some e).

(** A bus event the loop passes over: a frame on which the test of the
    script evaluates to [False]. *)
Definition rejected (accepts : Message -> res bool) (ev : Z * rx_event) : Prop :=
  exists m, snd ev = RxFrame m /\ accepts m = Ret false.

(** ** The results of one call of [wait_for_response]

    They are told apart by the value returned and by the line the call adds
    to the log. *)

Definition timed_out (w : World) (res : res bool * World) : Prop :=
  fst res = Ret false /\
  logs (snd res) = logs w ++ [deadline_warning].

Definition failed (w : World) (res : res bool * World) : Prop :=
  exists e, is_Exception e = true /\
            fst res = Ret false /\
            logs (snd res) = logs w ++ [wait_error e].

Definition acknowledged (accepts : Message -> res bool)
    (valid_response : Message -> log_entry)
    (w : World) (res : res bool * World) : Prop :=
  exists m, accepts m = Ret true /\
            fst res = Ret true /\
            logs (snd res) = logs w ++ [valid_response m].

Definition interrupted (w : World) (res : res bool * World) : Prop :=
  fst res = Raise KeyboardInterrupt /\ logs (snd res) = logs w.

(** ** Growth of the trace *)

(** [appends P w w']: from [w] to [w'] the trace has only grown, by calls
    that satisfy [P]. *)
Definition appends (P : io -> Prop) (w w' : World) : Prop :=
  exists evs, trace w' = trace w ++ evs /\ Forall P evs.

Definition emits {A : Type} (P : io -> Prop) (m : M A) : Prop :=
  forall w, appends P w (snd (m w)).

(** Calls made by [send_update_command]. *)
Definition is_update_io (e : io) : bool :=
  match e with
  | IoChdir _ _ => true
  | IoRun (Shell _) _ => true
  | _ => false
  end.

Definition update_calls (tr : list io) : list io := filter is_update_io tr.

Definition not_update (e : io) : Prop := is_update_io e = false.

(** The stages in front of the update, each answering [True]: from the
    world [w1] left by the freshness check to the world [w4] left by the
    wait. *)
Definition handshake_done (wait_for_response : M bool) (w1 w4 : World) : Prop :=
  exists w2 w3,
    setup_can_interface
      (add_log (LogInfo "New file detected, starting update process") w1)
      = (Ret true, w2) /\
    send_can_message w2 = (Ret true, w3) /\
    wait_for_response w3 = (Ret true, w4).

(** The trigger frame of the handshake, as the properties name it. *)
Definition trigger_frame : Message :=
  mkMessage 0x18FF14FA true [1; 0; 0; 0; 0; 0; 0; 0].

(** The times at which the freshness check was called. *)
Fixpoint check_times (tr : list io) : list Z :=
  match tr with
  | [] => []
  | IoCheck now _ :: tr' => now :: check_times tr'
  | _ :: tr' => check_times tr'
  end.

(** ** Bus handles *)




(** ** Commands and pauses *)

(** The three commands of [setup_can_interface], in the order it runs
    them. *)
Definition setup_commands : list command :=
  [Argv ["sudo"; "ip"; "link"; "set"; "down"; "can0"];
   Argv ["sudo"; "ip"; "link"; "set"; "can0"; "type"; "can";
         "bitrate"; "250000"];
   Argv ["sudo"; "ip"; "link"; "set"; "up"; "can0"]].

(** The command line of [send_update_command]. *)
Definition update_command : command :=
  Shell "qemu-aarch64-static ./can-update /tmp/configurationFull.gciBin".

(** The trace entries of commands run with the given answers. *)
Definition ran (cs : list command) (rs : list (option exn)) : list io :=
  map (fun cr => IoRun (fst cr) (snd cr)) (combine cs rs).

(** What a call answers when the outside answers [r]: [True] on success,
    [False] on an exception the function catches, the exception itself
    otherwise. *)
Definition verdict (catches : exn -> bool) (r : option exn) : res bool :=
  match r with
  | None => Ret true
  | Some e => if catches e then Ret false else Raise e
  end.

(** [advances m]: running [m] never sets the clock back. *)
Definition advances {A : Type} (m : M A) : Prop :=
  forall w, clock w <= clock (snd (m w)).

(** The number of polls of a wait on a bus that stays empty. *)
Definition polls_of (s : script) : nat :=
  match s with
  | SourceAddress => 120
  | PgnMask => 10
  end.

(** The line [update_process] logs before a round goes on. *)
Definition new_file_detected : log_entry :=
  LogInfo "New file detected, starting update process".

(** [stops_at s w1 w' msg]: after a freshness check that left [w1], the
    stages of script [s] answer [True] up to one that answers [False] and
    leaves [w']; [msg] is the line [main] logs for that stage. *)
Inductive stops_at (s : script) (w1 : World) : World -> string -> Prop :=
| StopsAtSetup (w2 : World) :
    setup_can_interface (add_log new_file_detected w1) = (Ret false, w2) ->
    stops_at s w1 w2 "Failed to setup CAN interface"
| StopsAtSend (w2 w3 : World) :
    setup_can_interface (add_log new_file_detected w1) = (Ret true, w2) ->
    send_can_message w2 = (Ret false, w3) ->
    stops_at s w1 w3 "Failed to send CAN message"
| StopsAtWait (w2 w3 w4 : World) :
    setup_can_interface (add_log new_file_detected w1) = (Ret true, w2) ->
    send_can_message w2 = (Ret true, w3) ->
    wait_for_response_of s w3 = (Ret false, w4) ->
    stops_at s w1 w4 "Did not receive valid response"
| StopsAtUpdate (w2 w3 w4 w5 : World) :
    setup_can_interface (add_log new_file_detected w1) = (Ret true, w2) ->
    send_can_message w2 = (Ret true, w3) ->
    wait_for_response_of s w3 = (Ret true, w4) ->
    Script.send_update_command (build_dir_of s) w4 = (Ret false, w5) ->
    stops_at s w1 w5 "Failed to send update command".

(** A bus event on which a round of the wait loop raises [e]: a failing
    [recv], or a frame on which the test of the script raises. *)
Definition raises (accepts : Message -> res bool) (ev : rx_event) (e : exn)
  : Prop :=
  ev = RxFault e \/ exists m, ev = RxFrame m /\ accepts m = Raise e.

(** The worlds a round of script [s] goes through, stage by stage. *)
Definition after_check (s : script) (w : World) : World :=
  snd (check_and_download_file (before_check s w)).

Definition after_setup (s : script) (w : World) : World :=
  snd (setup_can_interface (add_log new_file_detected (after_check s w))).

Definition after_send (s : script) (w : World) : World :=
  snd (send_can_message (after_setup s w)).

Definition after_wait (s : script) (w : World) : World :=
  snd (wait_for_response_of s (after_send s w)).

Definition after_update (s : script) (w : World) : World :=
  snd (Script.send_update_command (build_dir_of s) (after_wait s w)).

(** ** Worlds used in the examples *)

(** A quiet world at time 0: nothing on the bus, every call succeeds, the
    freshness check reports no new file. *)
Definition quiet : World := mkWorld 0 [] [] [] [] [] [] [] [].

Definition frame (id : Z) (payload : list Z) : rx_event :=
  RxFrame (mkMessage id true payload).



(** The acknowledgement the PGN script waits for, there from the start. *)
Definition pgn_ack_bus : World :=
  set_rx [(0, frame 0x18FF14FB [1; 0; 0; 0; 0; 0; 0; 0])] quiet.

(** The acknowledgement from source address 3 after one second. *)
Definition ack_only : World :=
  set_rx [(1000, frame 0x18FF1403 [1; 0; 0; 0; 0; 0; 0; 0])] quiet.

(** The same, with an empty frame from source address 3 first. *)
Definition empty_then_ack : World :=
  set_rx [(0, frame 0x18FF1403 []);
          (1000, frame 0x18FF1403 [1; 0; 0; 0; 0; 0; 0; 0])] quiet.

(** An unrelated frame, an engine-speed frame (PGN 61444) from source
    address 3 whose payload starts with 1, and a later frame. *)
Definition foreign_pgn_bus : World :=
  set_rx [(200, frame 0x18FEF100 [0; 0; 0; 0; 0; 0; 0; 0]);
          (700, frame 0x0CF00403 [1; 125; 125; 0; 0; 0; 0; 0]);
          (900, frame 0x18FF14FB [1; 0; 0; 0; 0; 0; 0; 0])] quiet.

(** A new file is there and source address 3 acknowledges after 1.5 s. *)
Definition fresh_and_acked : World :=
  set_rx [(1500, frame 0x18FF1403 [1; 0; 0; 0; 0; 0; 0; 0])]
         (set_checks [Ret true] quiet).

(** A new file is there and the first setup command fails. *)
Definition setup_fails : World :=
  set_runs [Some CalledProcessError] (set_checks [Ret true] quiet).

(** A new file is there and the bus cannot be opened. *)
Definition bus_down : World :=
  set_opens [Some CanError] (set_checks [Ret true] quiet).

(** A new file is there and nobody answers the trigger. *)
Definition no_answer : World := set_checks [Ret true] quiet.

(** The freshness check raises an exception it does not catch. *)
Definition check_raises : World := set_checks [Raise OSError] quiet.

(** The freshness check is interrupted from the keyboard. *)
Definition interrupted_check : World :=
  set_checks [Raise KeyboardInterrupt] quiet.

(** A new file is there, source address 3 acknowledges and the updater
    fails. *)
Definition updater_fails : World :=
  set_runs [None; None; None; Some CalledProcessError] fresh_and_acked.

(** Some chatter, then the bus fails, then the acknowledgement. *)
Definition fault_before_ack : World :=
  set_rx [(300, frame 0x18FF1401 [0; 0; 0; 0; 0; 0; 0; 0]);
          (800, RxFault CanError);
          (900, frame 0x18FF1403 [1; 0; 0; 0; 0; 0; 0; 0])] quiet.

(** Two frames that are no acknowledgement. *)
Definition chatter_bus : World :=
  set_rx [(300, frame 0x18FF1401 [0; 0; 0; 0; 0; 0; 0; 0]);
          (4500, frame 0x18FEF100 [1])] quiet.

(** * Properties *)

(** ** The wait loop, one round at a time *)

Section WaitLoopFacts.

Variable timeout : Z.
Variable accepts : Message -> res bool.
Variable valid_response : Message -> log_entry.

Let wait_loop := Script.wait_loop timeout accepts valid_response.

Lemma wait_loop_eq (start_time : Z) (w : World) :
  wait_loop start_time w =
  if clock w - start_time <? timeout then
    match bus_recv 1000 w with
    | (Raise e, w1) => (Raise e, w1)
    | (Ret None, w1) => wait_loop start_time w1
    | (Ret (Some msg), w1) =>
        match accepts msg with
        | Raise e => (Raise e, w1)
        | Ret true => (Ret true, add_log (valid_response msg) w1)
        | Ret false => wait_loop start_time w1
        end
    end
  else (Ret false, add_log deadline_warning w).
Proof.
  funelim (wait_loop start_time w).
  all: repeat match goal with
       | H : (?c <? ?d) = _ |- context [?c <? ?d] => rewrite H
       | H : bus_recv ?t ?w = _ |- context [bus_recv ?t ?w] => rewrite H
       | H : accepts ?m = _ |- context [accepts ?m] => rewrite H
       end; reflexivity.
Qed.

(** Case analysis and induction over the rounds of the loop. *)
Lemma wait_loop_rounds (start_time : Z)
      (P : World -> res bool * World -> Prop) :
  (forall w,
      timeout <= clock w - start_time ->
      P w (Ret false, add_log deadline_warning w)) ->
  (forall w t e rest,
      clock w - start_time < timeout ->
      rx w = (t, RxFault e) :: rest -> t <= clock w + 1000 ->
      P w (Raise e, delivered t rest (Raise e) w)) ->
  (forall w,
      clock w - start_time < timeout ->
      (forall t ev rest, rx w = (t, ev) :: rest -> clock w + 1000 < t) ->
      P (idled w) (wait_loop start_time (idled w)) ->
      P w (wait_loop start_time (idled w))) ->
  (forall w t m rest e,
      clock w - start_time < timeout ->
      rx w = (t, RxFrame m) :: rest -> t <= clock w + 1000 ->
      accepts m = Raise e ->
      P w (Raise e, delivered t rest (Ret (Some m)) w)) ->
  (forall w t m rest,
      clock w - start_time < timeout ->
      rx w = (t, RxFrame m) :: rest -> t <= clock w + 1000 ->
      accepts m = Ret true ->
      P w (Ret true,
           add_log (valid_response m) (delivered t rest (Ret (Some m)) w))) ->
  (forall w t m rest,
      clock w - start_time < timeout ->
      rx w = (t, RxFrame m) :: rest -> t <= clock w + 1000 ->
      accepts m = Ret false ->
      P (delivered t rest (Ret (Some m)) w)
        (wait_loop start_time (delivered t rest (Ret (Some m)) w)) ->
      P w (wait_loop start_time (delivered t rest (Ret (Some m)) w))) ->
  forall w, P w (wait_loop start_time w).
Proof.
  intros Hdead Hfault Hidle Hraise Hyes Hno w.
  remember (loop_measure timeout start_time w) as n eqn:Hn.
  revert w Hn.
  induction n as [n IH] using (well_founded_induction Wf_nat.lt_wf).
  intros w Hn. rewrite wait_loop_eq.
  destruct (clock w - start_time <? timeout) eqn:Hc.
  2:{ apply Z.ltb_ge in Hc. apply Hdead. lia. }
  pose proof Hc as Hlt. apply Z.ltb_lt in Hlt.
  destruct (bus_recv 1000 w) as [[[msg|]|e] w1] eqn:Hr.
  - pose proof (bus_recv_some_measure timeout start_time _ _ _ Hr) as Hm.
    unfold bus_recv in Hr.
    destruct (rx w) as [|[t ev] rest] eqn:Hq; [discriminate|].
    destruct (t <=? clock w + 1000) eqn:Ht; [|discriminate].
    apply Z.leb_le in Ht.
    destruct ev as [m|e]; [|discriminate].
    inversion Hr; subst msg w1; clear Hr.
    fold (delivered t rest (Ret (Some m)) w) in *.
    destruct (accepts m) as [[|]|e] eqn:Ha.
    + apply Hyes; assumption.
    + apply Hno; try assumption.
      eapply IH; [|reflexivity]. subst n. exact Hm.
    + apply Hraise; assumption.
  - pose proof (bus_recv_none_measure timeout start_time _ _ Hc Hr) as Hm.
    unfold bus_recv in Hr.
    assert (w1 = idled w /\
            forall t ev rest, rx w = (t, ev) :: rest -> clock w + 1000 < t)
      as [E Hlate].
    { destruct (rx w) as [|[t ev] rest] eqn:Hq.
      - inversion Hr. split; [reflexivity|discriminate].
      - destruct (t <=? clock w + 1000) eqn:Ht.
        + destruct ev; discriminate.
        + inversion Hr. split; [reflexivity|].
          intros t' ev' rest' E. inversion E; subst.
          apply Z.leb_gt in Ht. lia. }
    clear Hr. subst w1.
    apply Hidle; try assumption.
    eapply IH; [|reflexivity]. subst n. exact Hm.
  - unfold bus_recv in Hr.
    destruct (rx w) as [|[t ev] rest] eqn:Hq; [discriminate|].
    destruct (t <=? clock w + 1000) eqn:Ht; [|discriminate].
    apply Z.leb_le in Ht.
    destruct ev as [m|e']; [discriminate|].
    inversion Hr; subst e' w1; clear Hr.
    apply Hfault; assumption.
Qed.

(** A frame that fails the test is dropped and the loop goes on. *)
Lemma wait_loop_discards (start_time : Z) (w : World) t m rest :
  clock w - start_time < timeout ->
  rx w = (t, RxFrame m) :: rest -> t <= clock w + 1000 ->
  accepts m = Ret false ->
  wait_loop start_time w =
  wait_loop start_time (delivered t rest (Ret (Some m)) w).
Proof.
  intros Hc Hq Ht Ha. unfold wait_loop at 1. rewrite wait_loop_eq.
  apply Z.ltb_lt in Hc. rewrite Hc. unfold bus_recv. rewrite Hq.
  apply Z.leb_le in Ht. rewrite Ht. rewrite Ha. reflexivity.
Qed.

(** The loop only receives. *)
Lemma wait_loop_trace (start_time : Z) (w : World) :
  exists evs,
    trace (snd (wait_loop start_time w)) = trace w ++ evs /\
    Forall (fun e => exists r, e = IoBusRecv r) evs.
Proof.
  apply (wait_loop_rounds start_time
           (fun w res => exists evs,
                trace (snd res) = trace w ++ evs /\
                Forall (fun e => exists r, e = IoBusRecv r) evs)).
  - intros; exists []; cbn. rewrite app_nil_r. auto.
  - intros; eexists; cbn; split; [reflexivity|]. repeat constructor; eauto.
  - intros w0 _ _ (evs & E & F). eexists. rewrite E. cbn.
    rewrite <- app_assoc. split; [reflexivity|].
    constructor; eauto.
  - intros; eexists; cbn; split; [reflexivity|]. repeat constructor; eauto.
  - intros; eexists; cbn; split; [reflexivity|]. repeat constructor; eauto.
  - intros w0 t m rest _ _ _ _ (evs & E & F). eexists. rewrite E. cbn.
    rewrite <- app_assoc. split; [reflexivity|].
    constructor; eauto.
Qed.

(** The clock of the loop: it never runs backwards, it stays within one
    poll of the deadline, and the loop gives [False] only once the
    deadline has passed. *)
Lemma wait_loop_clock (start_time : Z) (w : World) :
  clock w <= clock (snd (wait_loop start_time w)) /\
  (clock w < start_time + timeout + 1000 ->
   clock (snd (wait_loop start_time w)) < start_time + timeout + 1000) /\
  (fst (wait_loop start_time w) = Ret false ->
   start_time + timeout <= clock (snd (wait_loop start_time w))).
Proof.
  apply (wait_loop_rounds start_time
           (fun w res =>
              clock w <= clock (snd res) /\
              (clock w < start_time + timeout + 1000 ->
               clock (snd res) < start_time + timeout + 1000) /\
              (fst res = Ret false ->
               start_time + timeout <= clock (snd res)))).
  - intros; cbn; lia.
  - intros; cbn; repeat split; try lia; discriminate.
  - intros w0 Hc _ (H1 & H2 & H3). cbn in *. repeat split; try lia; auto.
  - intros; cbn; repeat split; try lia; discriminate.
  - intros; cbn; repeat split; try lia; discriminate.
  - intros w0 t m rest Hc _ Ht _ (H1 & H2 & H3). cbn in *.
    repeat split; try lia; auto.
Qed.

(** The three ways out of the loop and what each leaves in the log. *)
Lemma wait_loop_outcome (start_time : Z) (w : World) :
  (fst (wait_loop start_time w) = Ret false /\
   logs (snd (wait_loop start_time w)) = logs w ++ [deadline_warning]) \/
  (exists m,
      accepts m = Ret true /\
      fst (wait_loop start_time w) = Ret true /\
      logs (snd (wait_loop start_time w)) = logs w ++ [valid_response m]) \/
  (exists e,
      fst (wait_loop start_time w) = Raise e /\
      logs (snd (wait_loop start_time w)) = logs w).
Proof.
  apply (wait_loop_rounds start_time
           (fun w res =>
              (fst res = Ret false /\
               logs (snd res) = logs w ++ [deadline_warning]) \/
              (exists m,
                  accepts m = Ret true /\
                  fst res = Ret true /\
                  logs (snd res) = logs w ++ [valid_response m]) \/
              (exists e, fst res = Raise e /\ logs (snd res) = logs w))).
  - intros; left; cbn; auto.
  - intros; right; right; cbn; eauto.
  - intros w0 _ _ H; exact H.
  - intros; right; right; cbn; eauto.
  - intros; right; left; cbn; eauto.
  - intros w0 t m rest _ _ _ _ H; exact H.
Qed.


(** The first frame that passes the test ends the loop with [True],
    provided it and the rejected frames before it arrive before the
    deadline. *)
Lemma wait_loop_first_accepted (start_time : Z) (w : World) :
  forall pre t m post,
    rx w = pre ++ (t, RxFrame m) :: post ->
    Forall (fun ev => rejected accepts ev /\ fst ev < start_time + timeout) pre ->
    t < start_time + timeout ->
    accepts m = Ret true ->
    clock w < start_time + timeout ->
    fst (wait_loop start_time w) = Ret true /\
    rx (snd (wait_loop start_time w)) = post /\
    clock (snd (wait_loop start_time w)) < start_time + timeout /\
    logs (snd (wait_loop start_time w)) = logs w ++ [valid_response m].
Proof.
  apply (wait_loop_rounds start_time
           (fun w res =>
              forall pre t m post,
                rx w = pre ++ (t, RxFrame m) :: post ->
                Forall (fun ev => rejected accepts ev /\
                                  fst ev < start_time + timeout) pre ->
                t < start_time + timeout ->
                accepts m = Ret true ->
                clock w < start_time + timeout ->
                fst res = Ret true /\
                rx (snd res) = post /\
                clock (snd res) < start_time + timeout /\
                logs (snd res) = logs w ++ [valid_response m])).
  - intros; lia.
  - intros w0 t e rest _ Hq _ pre t' m post E F _ _ _.
    rewrite Hq in E. destruct pre as [|p pre]; [discriminate|].
    inversion E; subst. inversion F as [|? ? [(m' & E' & _) _] _]; subst.
    discriminate.
  - intros w0 Hc Hlate IH pre t m post E F Ht Ha Hnow.
    assert (clock (idled w0) < start_time + timeout) as Hnow'.
    { cbn. destruct pre as [|[t1 ev1] pre].
      - specialize (Hlate _ _ _ E). lia.
      - specialize (Hlate _ _ _ E).
        inversion F as [|? ? [_ Hlt] _]; subst. cbn in Hlt. lia. }
    specialize (IH pre t m post E F Ht Ha Hnow'). cbn in IH. exact IH.
  - intros w0 t m rest e _ Hq _ Ha pre t' m' post E F _ Ha' _.
    rewrite Hq in E. destruct pre as [|p pre].
    + inversion E; subst. congruence.
    + inversion E; subst.
      inversion F as [|? ? [(m2 & E2 & Ha2) _] _]; subst. cbn in E2.
      inversion E2; subst. congruence.
  - intros w0 t m rest _ Hq _ Ha pre t' m' post E F Ht' Ha' Hnow.
    rewrite Hq in E. destruct pre as [|p pre].
    + inversion E; subst. cbn. repeat split; try reflexivity. lia.
    + inversion E; subst.
      inversion F as [|? ? [(m2 & E2 & Ha2) _] _]; subst. cbn in E2.
      inversion E2; subst. congruence.
  - intros w0 t m rest _ Hq _ Ha IH pre t' m' post E F Ht' Ha' Hnow.
    rewrite Hq in E. destruct pre as [|p pre].
    + inversion E; subst. congruence.
    + inversion E; subst. inversion F as [|? ? [_ Hlt] F']; subst.
      cbn in Hlt.
      pose proof (IH pre t' m' post eq_refl F' Ht' Ha') as IH'.
      cbn in IH'. apply IH'. lia.
Qed.

End WaitLoopFacts.

(** ** One call of [wait_for_response] *)

Section WaitFacts.

Variable timeout : Z.
Variable accepts : Message -> res bool.
Variable valid_response : Message -> log_entry.

Let wait_loop := Script.wait_loop timeout accepts valid_response.
Let wait_for_response :=
  Script.wait_for_response timeout accepts valid_response.

Lemma wait_for_response_eq (w : World) :
  wait_for_response w =
  match hd None (opens w) with
  | Some e =>
      if is_Exception e then (Ret false, add_log (wait_error e) (opened w))
      else (Raise e, opened w)
  | None =>
      match wait_loop (clock w) (opened w) with
      | (Raise e, w') =>
          if is_Exception e then (Ret false, add_log (wait_error e) w')
          else (Raise e, w')
      | r => r
      end
  end.
Proof.
  unfold wait_for_response, Script.wait_for_response, try_except, bind, Bus,
    time_time, opened.
  destruct (hd None (opens w)) as [e|]; cbn.
  - destruct (is_Exception e); reflexivity.
  - fold wait_loop.
    destruct (wait_loop _ _) as [[b|e] w']; [reflexivity|].
    destruct (is_Exception e); reflexivity.
Qed.

Lemma wait_for_response_outcome (w : World) :
  timed_out w (wait_for_response w) \/
  failed w (wait_for_response w) \/
  acknowledged accepts valid_response w (wait_for_response w) \/
  interrupted w (wait_for_response w).
Proof.
  rewrite wait_for_response_eq.
  destruct (hd None (opens w)) as [e|] eqn:Ho.
  - destruct (is_Exception e) eqn:He.
    + right; left. exists e. repeat split; auto.
    + destruct e; try discriminate.
      right; right; right. split; reflexivity.
  - pose proof (wait_loop_outcome timeout accepts valid_response
                  (clock w) (opened w)) as H.
    fold wait_loop in H.
    destruct (wait_loop (clock w) (opened w)) as [[b|e] w'].
    + cbn in H. destruct H as [[E L]|[(m & Ha & E & L)|(e & E & _)]].
      * left. split; assumption.
      * right; right; left. exists m. auto.
      * discriminate.
    + cbn in H. destruct H as [[E _]|[(m & _ & E & _)|(e' & E & L)]];
        try discriminate.
      destruct (is_Exception e) eqn:He.
      * right; left. exists e. repeat split; auto.
        cbn. rewrite L. reflexivity.
      * destruct e; try discriminate.
        right; right; right. split; [reflexivity | exact L].
Qed.

(** A call opens the bus once and then only receives. *)
Lemma wait_for_response_trace (w : World) :
  exists evs,
    trace (snd (wait_for_response w)) =
    trace w ++ IoBusOpen (hd None (opens w)) :: evs /\
    Forall (fun e => exists r, e = IoBusRecv r) evs.
Proof.
  rewrite wait_for_response_eq.
  destruct (hd None (opens w)) as [e|] eqn:Ho.
  - exists []. split; [|constructor].
    destruct (is_Exception e); cbn; rewrite Ho; reflexivity.
  - destruct (wait_loop_trace timeout accepts valid_response
                (clock w) (opened w)) as (evs & E & F).
    fold wait_loop in E. exists evs. split; [|exact F].
    destruct (wait_loop (clock w) (opened w)) as [[b|e] w']; cbn in *.
    + rewrite E, Ho, <- app_assoc. reflexivity.
    + destruct (is_Exception e); cbn; rewrite E, Ho, <- app_assoc;
        reflexivity.
Qed.

(** A call never lasts a full poll beyond the deadline, and it takes the
    deadline exit only when the deadline has passed. *)
Lemma wait_for_response_clock (w : World) :
  0 <= timeout ->
  clock w <= clock (snd (wait_for_response w)) /\
  clock (snd (wait_for_response w)) < clock w + timeout + 1000 /\
  (timed_out w (wait_for_response w) ->
   clock w + timeout <= clock (snd (wait_for_response w))).
Proof.
  intros Hpos. rewrite wait_for_response_eq.
  destruct (hd None (opens w)) as [e|] eqn:Ho.
  - destruct (is_Exception e); cbn; repeat split; try lia.
    + intros [_ L]. cbn in L. apply app_inv_head in L. discriminate.
    + intros [E _]. discriminate.
  - pose proof (wait_loop_clock timeout accepts valid_response
                  (clock w) (opened w)) as (H1 & H2 & H3).
    pose proof (wait_loop_outcome timeout accepts valid_response
                  (clock w) (opened w)) as Hout.
    fold wait_loop in H1, H2, H3, Hout.
    destruct (wait_loop (clock w) (opened w)) as [[b|e] w']; cbn in *.
    + repeat split; try lia. intros [E _]. apply H3. exact E.
    + destruct Hout as [[E _]|[(m & _ & E & _)|(e' & E & L)]];
        try discriminate.
      destruct (is_Exception e); cbn; repeat split; try lia.
      * intros [_ L']. cbn in L'. rewrite L in L'.
        apply app_inv_head in L'. discriminate.
      * intros [E' _]. discriminate.
Qed.


(** The first accepted frame ends the call with [True]. *)
Lemma wait_for_response_first_accepted (w : World) pre t m post :
  hd None (opens w) = None ->
  rx w = pre ++ (t, RxFrame m) :: post ->
  Forall (fun ev => rejected accepts ev /\ fst ev < clock w + timeout) pre ->
  t < clock w + timeout ->
  accepts m = Ret true ->
  0 < timeout ->
  fst (wait_for_response w) = Ret true /\
  rx (snd (wait_for_response w)) = post /\
  clock (snd (wait_for_response w)) < clock w + timeout /\
  logs (snd (wait_for_response w)) = logs w ++ [valid_response m].
Proof.
  intros Ho Hq F Ht Ha Hpos.
  assert (clock (opened w) < clock w + timeout) as Hnow by (cbn; lia).
  pose proof (wait_loop_first_accepted timeout accepts valid_response
                (clock w) (opened w) pre t m post Hq F Ht Ha Hnow) as H.
  rewrite wait_for_response_eq, Ho. fold wait_loop in H.
  destruct (wait_loop (clock w) (opened w)) as [[b|e] w']; cbn in *.
  - exact H.
  - destruct H as [E _]. discriminate.
Qed.

End WaitFacts.

(** ** What a piece of script adds to the trace *)

Lemma appends_refl (P : io -> Prop) (w w' : World) :
  trace w' = trace w -> appends P w w'.
Proof. intros E. exists []. rewrite app_nil_r. auto. Qed.

Lemma appends_trans (P : io -> Prop) (a b c : World) :
  appends P a b -> appends P b c -> appends P a c.
Proof.
  intros (e1 & E1 & F1) (e2 & E2 & F2). exists (e1 ++ e2).
  rewrite E2, E1, app_assoc. split; [reflexivity|].
  apply Forall_app; auto.
Qed.

Lemma appends_emit (P : io -> Prop) (e : io) (w w' : World) :
  P e -> trace w' = trace w -> appends P w (emit e w').
Proof.
  intros He E. exists [e]. cbn. rewrite E. auto.
Qed.

Section Emits.

Variable P : io -> Prop.

Lemma emits_ret {A : Type} (a : A) : emits P (ret a).
Proof. intros w. apply appends_refl. reflexivity. Qed.

Lemma emits_bind {A B : Type} (m : M A) (k : A -> M B) :
  emits P m -> (forall a, emits P (k a)) -> emits P (bind m k).
Proof.
  intros Hm Hk w. unfold bind. specialize (Hm w).
  destruct (m w) as [[a|e] w1]; cbn in *; [|exact Hm].
  eapply appends_trans; [exact Hm|apply Hk].
Qed.

Lemma emits_try_except {A : Type}
      (body : M A) (catches : exn -> bool) (handler : exn -> M A) :
  emits P body -> (forall e, emits P (handler e)) ->
  emits P (try_except body catches handler).
Proof.
  intros Hb Hh w. unfold try_except. specialize (Hb w).
  destruct (body w) as [[a|e] w1]; cbn in *; [exact Hb|].
  destruct (catches e); [|exact Hb].
  eapply appends_trans; [exact Hb|apply Hh].
Qed.

Lemma emits_logging (l : log_entry) : emits P (logging l).
Proof. intros w. apply appends_refl. reflexivity. Qed.

Lemma emits_time_sleep (ms : Z) : emits P (time_sleep ms).
Proof. intros w. apply appends_refl. reflexivity. Qed.

Lemma emits_time_time : emits P time_time.
Proof. intros w. apply appends_refl. reflexivity. Qed.

Lemma emits_Bus : (forall r, P (IoBusOpen r)) -> emits P Bus.
Proof. intros H w. apply appends_emit; auto. Qed.

Lemma emits_bus_send (msg : Message) :
  (forall r, P (IoBusSend msg r)) -> emits P (bus_send msg).
Proof. intros H w. apply appends_emit; auto. Qed.

Lemma emits_subprocess_run (c : command) :
  (forall r, P (IoRun c r)) -> emits P (subprocess_run c).
Proof. intros H w. apply appends_emit; auto. Qed.

Lemma emits_os_chdir (path : string) :
  (forall r, P (IoChdir path r)) -> emits P (os_chdir path).
Proof. intros H w. apply appends_emit; auto. Qed.

Lemma emits_check_and_download_file :
  (forall t r, P (IoCheck t r)) -> emits P check_and_download_file.
Proof. intros H w. apply appends_emit; auto. Qed.

Lemma emits_wait_for_response timeout accepts valid_response :
  (forall r, P (IoBusOpen r)) -> (forall r, P (IoBusRecv r)) ->
  emits P (Script.wait_for_response timeout accepts valid_response).
Proof.
  intros Ho Hr w.
  destruct (wait_for_response_trace timeout accepts valid_response w)
    as (evs & E & F).
  exists (IoBusOpen (hd None (opens w)) :: evs). split; [exact E|].
  constructor; [apply Ho|].
  eapply Forall_impl; [|exact F]. intros e [r ->]. apply Hr.
Qed.

End Emits.

Ltac emits_step :=
  first
    [ apply emits_ret
    | apply emits_logging
    | apply emits_time_sleep
    | apply emits_time_time
    | apply emits_Bus; solve [auto]
    | apply emits_bus_send; solve [auto]
    | apply emits_subprocess_run; solve [auto]
    | apply emits_os_chdir; solve [auto]
    | apply emits_check_and_download_file; solve [auto]
    | apply emits_wait_for_response; solve [auto]
    | apply emits_bind; [|intros ?]
    | apply emits_try_except; [|intros ?]
    | match goal with
      | |- emits _ (if ?b then _ else _) => destruct b
      | |- emits _ (match ?s with _ => _ end) => destruct s
      end ].

Section EmitsScript.

Variable P : io -> Prop.

Lemma emits_setup_can_interface :
  (forall args r, P (IoRun (Argv args) r)) -> emits P setup_can_interface.
Proof. intros H. unfold setup_can_interface. repeat emits_step. Qed.

Lemma emits_send_can_message :
  (forall r, P (IoBusOpen r)) ->
  (forall r, P (IoBusSend (mkMessage 0x18FF14FA true [1; 0; 0; 0; 0; 0; 0; 0])
                          r)) ->
  emits P send_can_message.
Proof. intros Ho Hs. unfold send_can_message. repeat emits_step. Qed.

Lemma emits_send_update_command (dir : string) :
  (forall path r, P (IoChdir path r)) ->
  (forall line r, P (IoRun (Shell line) r)) ->
  emits P (Script.send_update_command dir).
Proof. intros Hc Hr. unfold Script.send_update_command. repeat emits_step. Qed.

End EmitsScript.

(** ** The handshake wait of the two scripts *)

Lemma wait_for_response_of_eq (s : script) :
  wait_for_response_of s =
  Script.wait_for_response (timeout_of s) (accepts_of s) (valid_response_of s).
Proof. destruct s; reflexivity. Qed.

Lemma timeout_of_pos (s : script) : 0 < timeout_of s.
Proof. destruct s; reflexivity. Qed.


(** The PGN test never passes: the mask keeps bits 8 to 24 only, the value
    compared with has bits 35 and 36 set. *)
Lemma pgn_mask_rejects_all (m : Message) : CanUpdateScript1.accepts m = Ret false.
Proof.
  unfold CanUpdateScript1.accepts.
  destruct (Z.land (arbitration_id m) 0x1FFFF00 =? 0x18FF14FB00) eqn:E;
    [|reflexivity].
  apply Z.eqb_eq in E.
  apply (f_equal (fun z => Z.testbit z 35)) in E.
  rewrite Z.land_spec in E. cbn in E.
  rewrite andb_false_r in E. discriminate.
Qed.

(** C10.  In the script that recognises the acknowledgement by source
    address, the test on a frame looks at the low byte of the identifier
    and at payload byte 0 only: a frame whose identifier has low byte 3 and
    whose payload starts with 1 is accepted, and so is the same payload
    under any other identifier with low byte 3; the first such frame
    received before the deadline (after frames the test rejects) ends the
    wait with [True], leaving what follows it on the bus unread. *)
Theorem source_address_ack_ignores_pgn :
  forall (w : World) (pre : list (Z * rx_event)) (t : Z) (m : Message)
         (post : list (Z * rx_event)),
    hd None (opens w) = None ->
    rx w = pre ++ (t, RxFrame m) :: post ->
    Forall (fun ev => rejected CanUpdateScript.accepts ev /\
                      fst ev < clock w + CanUpdateScript.timeout) pre ->
    t < clock w + CanUpdateScript.timeout ->
    Z.land (arbitration_id m) 0xFF = 3 ->
    nth_error (data m) 0 = Some 1 ->
    (forall id ext,
        Z.land id 0xFF = 3 ->
        CanUpdateScript.accepts (mkMessage id ext (data m)) = Ret true) /\
    CanUpdateScript.accepts m = Ret true /\
    fst (CanUpdateScript.wait_for_response w) = Ret true /\
    rx (snd (CanUpdateScript.wait_for_response w)) = post /\
    clock (snd (CanUpdateScript.wait_for_response w))
      < clock w + CanUpdateScript.timeout.
Proof.
  intros w pre t m post Ho Hq F Ht Hsa Hd.
  assert (forall id ext,
             Z.land id 0xFF = 3 ->
             CanUpdateScript.accepts (mkMessage id ext (data m)) = Ret true)
    as Hany.
  { intros id ext Hid. unfold CanUpdateScript.accepts. cbn [arbitration_id data].
    rewrite Hid, Hd. reflexivity. }
  split; [exact Hany|].
  assert (CanUpdateScript.accepts m = Ret true) as Ha.
  { unfold CanUpdateScript.accepts. rewrite Hsa, Hd. reflexivity. }
  split; [exact Ha|].
  destruct (wait_for_response_first_accepted
              CanUpdateScript.timeout CanUpdateScript.accepts
              CanUpdateScript.valid_response w pre t m post
              Ho Hq F Ht Ha eq_refl) as (H1 & H2 & H3 & _).
  repeat split; assumption.
Qed.

Lemma source_address_ack_ignores_pgn_witness :
  fst (CanUpdateScript.wait_for_response foreign_pgn_bus) = Ret true /\
  rx (snd (CanUpdateScript.wait_for_response foreign_pgn_bus)) =
    [(900, frame 0x18FF14FB [1; 0; 0; 0; 0; 0; 0; 0])].
Proof.
  destruct (source_address_ack_ignores_pgn foreign_pgn_bus
              [(200, frame 0x18FEF100 [0; 0; 0; 0; 0; 0; 0; 0])]
              700 (mkMessage 0x0CF00403 true [1; 125; 125; 0; 0; 0; 0; 0])
              [(900, frame 0x18FF14FB [1; 0; 0; 0; 0; 0; 0; 0])])
    as (_ & _ & H1 & H2 & _).
  - reflexivity.
  - reflexivity.
  - constructor; [|constructor]. split; [|reflexivity].
    eexists. split; reflexivity.
  - reflexivity.
  - reflexivity.
  - reflexivity.
  - split; assumption.
Defined.





(** C1.  The script that means to recognise the acknowledgement by its PGN
    group compares [identifier & 0x1FFFF00] with [0x18FF14FB00]; no
    identifier passes, so no frame is ever taken for the acknowledgement
    and the wait never returns [True].  A frame with identifier
    [0x18FF14FB] and payload byte 0 equal to 1, arriving at once, is read
    and dropped, and the wait ends at its deadline with [False]. *)
Theorem pgn_mask_never_acknowledges :
  (forall m, CanUpdateScript1.accepts m = Ret false) /\
  (forall w, fst (CanUpdateScript1.wait_for_response w) <> Ret true) /\
  rx pgn_ack_bus = [(0, frame 0x18FF14FB [1; 0; 0; 0; 0; 0; 0; 0])] /\
  fst (CanUpdateScript1.wait_for_response pgn_ack_bus) = Ret false /\
  clock (snd (CanUpdateScript1.wait_for_response pgn_ack_bus)) = 10 * 1000 /\
  rx (snd (CanUpdateScript1.wait_for_response pgn_ack_bus)) = [] /\
  logs (snd (CanUpdateScript1.wait_for_response pgn_ack_bus)) =
    [deadline_warning].
Proof.
  split; [exact pgn_mask_rejects_all|].
  split.
  - intros w E.
    destruct (wait_for_response_outcome
                CanUpdateScript1.timeout CanUpdateScript1.accepts
                CanUpdateScript1.valid_response w)
      as [[E' _]|[(e & _ & E' & _)|[(m & Ha & _)|[E' _]]]];
      unfold CanUpdateScript1.wait_for_response in E; try congruence.
    rewrite pgn_mask_rejects_all in Ha. discriminate.
  - repeat split; vm_compute; reflexivity.
Qed.

(** C4.  In the script that recognises the acknowledgement by source
    address, a frame from source address 3 with an empty payload does not
    pass the test (indexing the payload raises [IndexError]), yet it ends
    the wait at once with [False]: the acknowledgement that follows it one
    second later is left unread, while the same bus without the empty
    frame gives [True]. *)
Theorem empty_payload_from_sa3_ends_wait :
  CanUpdateScript.accepts (mkMessage 0x18FF1403 true []) = Raise IndexError /\
  rx empty_then_ack = (0, frame 0x18FF1403 []) :: rx ack_only /\
  fst (CanUpdateScript.wait_for_response empty_then_ack) = Ret false /\
  clock (snd (CanUpdateScript.wait_for_response empty_then_ack)) = 0 /\
  rx (snd (CanUpdateScript.wait_for_response empty_then_ack)) = rx ack_only /\
  logs (snd (CanUpdateScript.wait_for_response empty_then_ack)) =
    [wait_error IndexError] /\
  fst (CanUpdateScript.wait_for_response ack_only) = Ret true.
Proof.
  repeat split; vm_compute; reflexivity.
Qed.

(** ** The update round *)

Lemma appends_update_calls (w w' : World) :
  appends not_update w w' ->
  update_calls (trace w') = update_calls (trace w).
Proof.
  intros (evs & E & F). unfold update_calls. rewrite E, filter_app.
  assert (filter is_update_io evs = []) as Hnil.
  { clear E. induction F as [|e l He _ IH]; cbn; [reflexivity|].
    unfold not_update in He. rewrite He. exact IH. }
  rewrite Hnil, app_nil_r. reflexivity.
Qed.

Lemma check_keeps_update_calls (w : World) :
  update_calls (trace (snd (check_and_download_file w))) =
  update_calls (trace w).
Proof.
  apply appends_update_calls, emits_check_and_download_file. reflexivity.
Qed.

Lemma setup_keeps_update_calls (w : World) :
  update_calls (trace (snd (setup_can_interface w))) = update_calls (trace w).
Proof.
  apply appends_update_calls, emits_setup_can_interface. reflexivity.
Qed.

Lemma send_keeps_update_calls (w : World) :
  update_calls (trace (snd (send_can_message w))) = update_calls (trace w).
Proof.
  apply appends_update_calls, emits_send_can_message; reflexivity.
Qed.

Lemma wait_keeps_update_calls timeout accepts valid_response (w : World) :
  update_calls
    (trace (snd (Script.wait_for_response timeout accepts valid_response w))) =
  update_calls (trace w).
Proof.
  apply appends_update_calls, emits_wait_for_response; reflexivity.
Qed.

(** Every call of [send_update_command] shows in the trace: it starts by
    changing directory. *)
Lemma send_update_command_shows (dir : string) (w : World) :
  update_calls (trace (snd (Script.send_update_command dir w))) <>
  update_calls (trace w).
Proof.
  assert (exists evs,
             trace (snd (Script.send_update_command dir w)) =
             trace w ++ IoChdir dir (hd None (chdirs w)) :: evs) as [evs E].
  { unfold Script.send_update_command, try_except, bind, os_chdir, time_sleep,
      subprocess_run, logging, ret.
    destruct (hd None (chdirs w)) as [e|]; cbn.
    - exists []. destruct (is_CalledProcessError e); reflexivity.
    - destruct (hd None (runs w)) as [e|]; cbn;
        [destruct (is_CalledProcessError e); cbn|];
        eexists; rewrite <- app_assoc; reflexivity. }
  unfold update_calls. rewrite E, filter_app. cbn. intros H.
  apply (f_equal (@List.length io)) in H.
  rewrite length_app in H. cbn in H. lia.
Qed.

Section Gate.

Variable timeout : Z.
Variable accepts : Message -> res bool.
Variable valid_response : Message -> log_entry.
Variable dir : string.

Let wait_for_response := Script.wait_for_response timeout accepts valid_response.
Let update_process := Script.update_process timeout accepts valid_response dir.
Let check_update_sleep :=
  Script.check_update_sleep timeout accepts valid_response dir.

Lemma update_process_gate (w : World) :
  update_calls (trace (snd (update_process w))) <> update_calls (trace w) ->
  exists w4,
    handshake_done wait_for_response w w4 /\ update_calls (trace w4) = update_calls (trace w).
Proof.
  intros H. unfold update_process, Script.update_process, bind in H.
  cbn [logging] in H.
  set (w0 := add_log (LogInfo "New file detected, starting update process") w)
    in *.
  pose proof (setup_keeps_update_calls w0) as K1.
  change (trace w0) with (trace w) in K1.
  destruct (setup_can_interface w0) as [[[|]|e] w2] eqn:E1; cbn in H, K1;
    try (exfalso; apply H; exact K1).
  pose proof (send_keeps_update_calls w2) as K2.
  destruct (send_can_message w2) as [[[|]|e] w3] eqn:E2; cbn in H, K2;
    try (exfalso; apply H; unfold update_calls in *; congruence).
  pose proof (wait_keeps_update_calls timeout accepts valid_response w3) as K3.
  destruct (Script.wait_for_response timeout accepts valid_response w3)
    as [[[|]|e] w4] eqn:E3; cbn in H, K3;
    try (exfalso; apply H; unfold update_calls in *; congruence).
  exists w4. split; [|congruence].
  exists w2, w3. repeat split; [exact E1|exact E2|exact E3].
Qed.

Lemma check_update_sleep_gate (w : World) :
  update_calls (trace (snd (check_update_sleep w))) <> update_calls (trace w) ->
  exists w1 w4,
    check_and_download_file w = (Ret true, w1) /\
    handshake_done wait_for_response w1 w4 /\
    update_calls (trace w4) = update_calls (trace w).
Proof.
  intros H. unfold check_update_sleep, Script.check_update_sleep, bind in H.
  pose proof (check_keeps_update_calls w) as K0.
  destruct (check_and_download_file w) as [[[|]|e] w1] eqn:E0;
    cbn [fst snd ret] in H, K0;
    try (exfalso; apply H; exact K0).
  fold update_process in H.
  destruct (update_process_gate w1) as (w4 & Hd & K).
  - intros E. apply H. rewrite <- K0, <- E.
    destruct (update_process w1) as [[[| |]|e] w']; reflexivity.
  - exists w1, w4. repeat split; [exact Hd|congruence].
Qed.

End Gate.

Lemma loop_body_trace (s : script) (w : World) :
  trace (snd (loop_body_of s w)) =
  trace (snd (Script.check_update_sleep (timeout_of s) (accepts_of s)
                (valid_response_of s) (build_dir_of s) (before_check s w))).
Proof.
  destruct s; cbn [loop_body_of before_check timeout_of accepts_of
                   valid_response_of build_dir_of];
    unfold CanUpdateScript.loop_body, CanUpdateScript1.loop_body,
      try_except, bind; cbn [logging].
  - destruct (Script.check_update_sleep _ _ _ _ _) as [[sg|e] w']; cbn;
      [reflexivity|].
    destruct e; cbn; reflexivity.
  - destruct (Script.check_update_sleep _ _ _ _ _) as [[sg|e] w']; cbn;
      [reflexivity|].
    destruct e; cbn; reflexivity.
Qed.

(** C2.  In a round of either script, calls of [send_update_command] appear
    only when, in that round, the freshness check, the interface setup,
    [send_can_message] and [wait_for_response] have each returned [True]
    one after the other; up to the end of the wait no such call is made. *)
Theorem update_only_after_acknowledgement :
  forall (s : script) (w : World),
    update_calls (trace (snd (loop_body_of s w))) <> update_calls (trace w) ->
    exists w1 w2 w3 w4,
      check_and_download_file (before_check s w) = (Ret true, w1) /\
      setup_can_interface
        (add_log (LogInfo "New file detected, starting update process") w1)
        = (Ret true, w2) /\
      send_can_message w2 = (Ret true, w3) /\
      wait_for_response_of s w3 = (Ret true, w4) /\
      update_calls (trace w4) = update_calls (trace w).
Proof.
  intros s w H. rewrite loop_body_trace in H.
  destruct (check_update_sleep_gate (timeout_of s) (accepts_of s)
              (valid_response_of s) (build_dir_of s) (before_check s w))
    as (w1 & w4 & E0 & (w2 & w3 & E1 & E2 & E3) & K).
  - intros E. apply H. rewrite E. destruct s; reflexivity.
  - exists w1, w2, w3, w4. rewrite wait_for_response_of_eq.
    repeat split; try assumption.
    rewrite K. destruct s; reflexivity.
Qed.

Lemma update_only_after_acknowledgement_witness :
  exists w3 w4,
    wait_for_response_of SourceAddress w3 = (Ret true, w4) /\
    update_calls (trace w4) = [].
Proof.
  destruct (update_only_after_acknowledgement SourceAddress fresh_and_acked)
    as (w1 & w2 & w3 & w4 & _ & _ & _ & E & K).
  - vm_compute. discriminate.
  - exists w3, w4. split; [exact E|exact K].
Defined.

(** What a whole round may add to the trace. *)
Lemma emits_loop_body_of (P : io -> Prop) (s : script) :
  (forall t r, P (IoCheck t r)) ->
  (forall args r, P (IoRun (Argv args) r)) ->
  (forall r, P (IoBusOpen r)) ->
  (forall r, P (IoBusSend (mkMessage 0x18FF14FA true [1; 0; 0; 0; 0; 0; 0; 0])
                          r)) ->
  (forall r, P (IoBusRecv r)) ->
  (forall path r, P (IoChdir path r)) ->
  (forall line r, P (IoRun (Shell line) r)) ->
  emits P (loop_body_of s).
Proof.
  intros Hcheck Hargv Hopen Hsend Hrecv Hchdir Hshell.
  pose proof (emits_setup_can_interface P Hargv) as Hsetup.
  pose proof (emits_send_can_message P Hopen Hsend) as Hmsg.
  assert (forall dir, emits P (Script.send_update_command dir)) as Hupd
      by (intros dir; apply emits_send_update_command; assumption).
  destruct s; cbn [loop_body_of];
    unfold CanUpdateScript.loop_body, CanUpdateScript1.loop_body,
      Script.check_update_sleep, Script.update_process;
    repeat first [ apply Hsetup | apply Hmsg | apply Hupd | emits_step ].
Qed.

(** C9.  When the freshness check of a round answers [False], the round
    is the check followed by the sleep of [DOWNLOAD_CHECK_INTERVAL] and
    nothing else: the world after the round is the world after the check
    with the clock moved on, and the trace has grown by the check alone
    (no interface setup, no frame sent, no receive, no update call). *)
Theorem stale_artifact_no_channel_ops :
  forall (s : script) (w w1 : World),
    check_and_download_file (before_check s w) = (Ret false, w1) ->
    loop_body_of s w =
      (Ret Normal, set_clock (clock w1 + DOWNLOAD_CHECK_INTERVAL) w1) /\
    trace (snd (loop_body_of s w)) = trace w ++ [IoCheck (clock w) (Ret false)] /\
    rx (snd (loop_body_of s w)) = rx w /\
    opens (snd (loop_body_of s w)) = opens w /\
    sends (snd (loop_body_of s w)) = sends w /\
    runs (snd (loop_body_of s w)) = runs w /\
    chdirs (snd (loop_body_of s w)) = chdirs w.
Proof.
  intros s w w1 H.
  assert (loop_body_of s w =
          (Ret Normal, set_clock (clock w1 + DOWNLOAD_CHECK_INTERVAL) w1)) as E.
  { destruct s; cbn [loop_body_of before_check] in *;
      unfold CanUpdateScript.loop_body, CanUpdateScript1.loop_body,
        try_except, bind, Script.check_update_sleep, bind;
      cbn [logging]; rewrite H; reflexivity. }
  rewrite E. split; [reflexivity|].
  unfold check_and_download_file in H.
  injection H as Hr Hw. subst w1. rewrite Hr.
  destruct s; cbn; repeat split; reflexivity.
Qed.

Lemma stale_artifact_no_channel_ops_witness :
  trace (snd (loop_body_of PgnMask chatter_bus)) = [IoCheck 0 (Ret false)] /\
  rx (snd (loop_body_of PgnMask chatter_bus)) = rx chatter_bus.
Proof.
  destruct (stale_artifact_no_channel_ops PgnMask chatter_bus
              (emit (IoCheck 0 (Ret false)) chatter_bus))
    as (_ & H1 & H2 & _).
  - reflexivity.
  - split; [exact H1|exact H2].
Defined.

(** ** Bus handles *)



Lemma send_can_message_trace (w : World) :
  (exists e, hd None (opens w) = Some e /\
             fst (send_can_message w) <> Ret true /\
             trace (snd (send_can_message w)) =
               trace w ++ [IoBusOpen (Some e)]) \/
  (exists e, hd None (opens w) = None /\
             fst (send_can_message w) <> Ret true /\
             trace (snd (send_can_message w)) =
               trace w ++ [IoBusOpen None; IoBusSend trigger_frame (Some e)]) \/
  (hd None (opens w) = None /\
   fst (send_can_message w) = Ret true /\
   trace (snd (send_can_message w)) =
     trace w ++ [IoBusOpen None; IoBusSend trigger_frame None]).
Proof.
  unfold send_can_message, try_except, bind, Bus, bus_send, logging, ret,
    trigger_frame.
  destruct (hd None (opens w)) as [e|]; cbn.
  - left. exists e. split; [reflexivity|].
    destruct (is_Exception e); cbn; split; try discriminate; reflexivity.
  - right. destruct (hd None (sends w)) as [e|]; cbn.
    + left. exists e. split; [reflexivity|].
      destruct (is_Exception e); cbn; rewrite <- app_assoc;
        split; try discriminate; reflexivity.
    + right. rewrite <- app_assoc. repeat split; reflexivity.
Qed.



(** C8.  [send_can_message] builds the same frame on every call, extended
    identifier [0x18FF14FA] (which fits 29 bits) with payload
    [1,0,0,0,0,0,0,0]: it opens the bus and, if that succeeds, passes
    exactly this frame to [bus.send] once; and every frame a round of either
    script passes to [bus.send] is this frame. *)
Theorem send_transmits_the_trigger_only :
  forall (s : script) (w : World),
    arbitration_id trigger_frame = 0x18FF14FA /\
    is_extended_id trigger_frame = true /\
    data trigger_frame = [1; 0; 0; 0; 0; 0; 0; 0] /\
    0 <= arbitration_id trigger_frame < 2 ^ 29 /\
    ((exists e, fst (send_can_message w) <> Ret true /\
                trace (snd (send_can_message w)) =
                  trace w ++ [IoBusOpen (Some e)]) \/
     (exists e, fst (send_can_message w) <> Ret true /\
                trace (snd (send_can_message w)) =
                  trace w ++ [IoBusOpen None;
                              IoBusSend trigger_frame (Some e)]) \/
     (fst (send_can_message w) = Ret true /\
      trace (snd (send_can_message w)) =
        trace w ++ [IoBusOpen None; IoBusSend trigger_frame None])) /\
    appends (fun e => forall m r, e = IoBusSend m r -> m = trigger_frame)
            w (snd (loop_body_of s w)).
Proof.
  intros s w. repeat (split; [reflexivity|]).
  split; [cbn; lia|]. split.
  - destruct (send_can_message_trace w)
      as [(e & _ & N & E)|[(e & _ & N & E)|(_ & N & E)]].
    + left. exists e. auto.
    + right; left. exists e. auto.
    + right; right. auto.
  - apply emits_loop_body_of; intros; try discriminate.
    match goal with
    | H : IoBusSend _ _ = IoBusSend _ _ |- _ => injection H as <- _
    end.
    reflexivity.
Qed.

(** ** The pause between rounds *)

(** C5.  A round that fails at a stage leaves the loop body by [continue],
    which skips [time.sleep(DOWNLOAD_CHECK_INTERVAL)]: the next freshness
    check starts at the very time the failed round ended.  With a failing
    interface setup or a bus that cannot be opened both checks happen at
    time 0; with no answer to the trigger the second check happens when the
    wait gives up (after 120 s and 10 s), not 60 s later.  The rounds that
    take no action or run into an unexpected exception do sleep: there the
    second check happens at 60 s. *)
Theorem failed_round_rechecks_at_once :
  forall s : script,
    check_times (trace (snd (main_of s 2 setup_fails))) = [0; 0] /\
    check_times (trace (snd (main_of s 2 bus_down))) = [0; 0] /\
    check_times (trace (snd (main_of s 2 no_answer))) = [0; timeout_of s] /\
    clock (snd (main_of s 1 setup_fails)) = 0 /\
    check_times (trace (snd (main_of s 2 quiet))) = [0; 60 * 1000] /\
    check_times (trace (snd (main_of s 2 check_raises))) = [0; 60 * 1000].
Proof.
  intros s. destruct s; repeat split; vm_compute; reflexivity.
Qed.

(** * Further properties of the scripts *)

(** ** [setup_can_interface] *)

(** When the next three commands all succeed, [setup_can_interface] runs
    [ip link set down], the bitrate setting and [ip link set up], in this
    order and nothing else, takes no model time, and returns [True]. *)
Theorem setup_runs_three_commands :
  forall w : World,
    firstn 3 (runs w ++ [None; None; None]) = [None; None; None] ->
    fst (setup_can_interface w) = Ret true /\
    trace (snd (setup_can_interface w)) =
      trace w ++ ran setup_commands [None; None; None] /\
    runs (snd (setup_can_interface w)) = skipn 3 (runs w) /\
    logs (snd (setup_can_interface w)) =
      logs w ++ [LogInfo "CAN interface configured successfully"] /\
    clock (snd (setup_can_interface w)) = clock w.
Proof.
  intros w H.
  unfold setup_can_interface, try_except, bind, subprocess_run, logging, ret.
  destruct (runs w) as [|[e1|] [|[e2|] [|[e3|] r3]]] eqn:Hr; cbn in H;
    try discriminate H; cbn;
    rewrite <- ?app_assoc; repeat split; reflexivity.
Qed.

Lemma setup_runs_three_commands_witness :
  fst (setup_can_interface (set_runs [None; None] quiet)) = Ret true /\
  runs (snd (setup_can_interface (set_runs [None; None] quiet))) = [].
Proof.
  destruct (setup_runs_three_commands (set_runs [None; None] quiet))
    as (H1 & _ & H3 & _).
  - reflexivity.
  - split; [exact H1|exact H3].
Defined.

(** When one of the three commands fails, [setup_can_interface] runs no
    later command: it has run the commands up to the failing one, returns
    [False] for a [CalledProcessError] and lets any other exception
    through. *)
Theorem setup_stops_at_first_failure :
  forall (w : World) (k : nat) (e : exn) (rest : list (option exn)),
    (k < 3)%nat ->
    runs w = repeat None k ++ Some e :: rest ->
    fst (setup_can_interface w) = verdict is_CalledProcessError (Some e) /\
    trace (snd (setup_can_interface w)) =
      trace w ++ ran (firstn (S k) setup_commands) (repeat None k ++ [Some e]) /\
    runs (snd (setup_can_interface w)) = rest.
Proof.
  intros w k e rest Hk Hr.
  unfold setup_can_interface, try_except, bind, subprocess_run, logging, ret,
    verdict.
  destruct k as [|[|[|k]]]; [| | |lia]; cbn in Hr; rewrite Hr; cbn;
    destruct (is_CalledProcessError e); cbn;
    rewrite <- ?app_assoc; repeat split; reflexivity.
Qed.

Lemma setup_stops_at_first_failure_witness :
  fst (setup_can_interface
         (set_runs [None; Some CalledProcessError; None] quiet)) = Ret false /\
  runs (snd (setup_can_interface
               (set_runs [None; Some CalledProcessError; None] quiet))) =
    [None].
Proof.
  destruct (setup_stops_at_first_failure
              (set_runs [None; Some CalledProcessError; None] quiet)
              1 CalledProcessError [None]) as (H1 & _ & H3).
  - lia.
  - reflexivity.
  - split; [exact H1|exact H3].
Defined.

(** ** [send_update_command] *)

(** When [os.chdir] fails, [send_update_command] neither pauses nor starts
    the updater, and the exception is not caught by the function (only a
    [CalledProcessError] is). *)
Theorem update_needs_build_dir :
  forall (dir : string) (w : World) (e : exn),
    hd None (chdirs w) = Some e ->
    fst (Script.send_update_command dir w) =
      verdict is_CalledProcessError (Some e) /\
    trace (snd (Script.send_update_command dir w)) =
      trace w ++ [IoChdir dir (Some e)] /\
    clock (snd (Script.send_update_command dir w)) = clock w /\
    runs (snd (Script.send_update_command dir w)) = runs w.
Proof.
  intros dir w e H.
  unfold Script.send_update_command, try_except, bind, os_chdir, verdict.
  rewrite H. cbn.
  destruct (is_CalledProcessError e); cbn; repeat split; reflexivity.
Qed.

Lemma update_needs_build_dir_witness :
  fst (CanUpdateScript.send_update_command
         (set_chdirs [Some OSError] quiet)) = Raise OSError /\
  runs (snd (CanUpdateScript.send_update_command
               (set_chdirs [Some OSError] quiet))) = [].
Proof.
  destruct (update_needs_build_dir CanUpdateScript.CAN_UPDATE_BUILD_DIR
              (set_chdirs [Some OSError] quiet) OSError)
    as (H1 & _ & _ & H4).
  - reflexivity.
  - split; [exact H1|exact H4].
Defined.

(** When [os.chdir] succeeds, [send_update_command] waits one second and
    runs the updater once, on the downloaded file; it returns [True] when
    the updater exits with success and [False] when it fails with
    [CalledProcessError]. *)
Theorem update_runs_updater_once :
  forall (dir : string) (w : World),
    hd None (chdirs w) = None ->
    fst (Script.send_update_command dir w) =
      verdict is_CalledProcessError (hd None (runs w)) /\
    trace (snd (Script.send_update_command dir w)) =
      trace w ++ [IoChdir dir None; IoRun update_command (hd None (runs w))] /\
    clock (snd (Script.send_update_command dir w)) = clock w + 1000.
Proof.
  intros dir w H.
  unfold Script.send_update_command, try_except, bind, os_chdir, time_sleep,
    subprocess_run, logging, ret, verdict, update_command.
  rewrite H. cbn.
  destruct (hd None (runs w)) as [e|]; cbn;
    [destruct (is_CalledProcessError e); cbn|];
    rewrite <- app_assoc; repeat split; reflexivity.
Qed.

Lemma update_runs_updater_once_witness :
  fst (CanUpdateScript1.send_update_command
         (set_runs [Some CalledProcessError] quiet)) = Ret false /\
  clock (snd (CanUpdateScript1.send_update_command
                (set_runs [Some CalledProcessError] quiet))) = 1000.
Proof.
  destruct (update_runs_updater_once CanUpdateScript1.CAN_UPDATE_BUILD_DIR
              (set_runs [Some CalledProcessError] quiet))
    as (H1 & _ & H3).
  - reflexivity.
  - split; [exact H1|exact H3].
Defined.

(** ** [send_can_message] *)

(** [send_can_message] sends only after the bus has opened, and answers
    with [True] when both the opening and the send succeed, with [False]
    when either raises an [Exception]; only a keyboard interrupt leaves the
    function as an exception.  When the opening fails no send is
    attempted. *)
Theorem send_can_message_verdict :
  forall w : World,
    fst (send_can_message w) =
      match hd None (opens w) with
      | Some e => verdict is_Exception (Some e)
      | None => verdict is_Exception (hd None (sends w))
      end /\
    sends (snd (send_can_message w)) =
      match hd None (opens w) with
      | Some _ => sends w
      | None => tl (sends w)
      end /\
    (forall e, fst (send_can_message w) = Raise e -> e = KeyboardInterrupt).
Proof.
  intros w.
  unfold send_can_message, try_except, bind, Bus, bus_send, logging, ret,
    verdict.
  destruct (hd None (opens w)) as [e1|]; cbn.
  - destruct e1; cbn; repeat split; try reflexivity;
      intros e H; try discriminate H; congruence.
  - destruct (hd None (sends w)) as [e2|]; cbn.
    + destruct e2; cbn; repeat split; try reflexivity;
        intros e H; try discriminate H; congruence.
    + repeat split; try reflexivity. intros e H; discriminate H.
Qed.

(** ** One round of [main] *)

Lemma loop_body_of_eq (s : script) (w : World) :
  loop_body_of s w =
  match Script.check_update_sleep (timeout_of s) (accepts_of s)
          (valid_response_of s) (build_dir_of s) (before_check s w) with
  | (Raise e, w') =>
      match s, e with
      | SourceAddress, KeyboardInterrupt =>
          (Ret Break, add_log (LogInfo "Script stopped by user") w')
      | PgnMask, KeyboardInterrupt => (Raise e, w')
      | _, _ =>
          (Ret Normal,
           set_clock (clock w' + DOWNLOAD_CHECK_INTERVAL)
             (add_log (LogError "Unexpected error in main loop" (Some e)) w'))
      end
  | r => r
  end.
Proof.
  destruct s; cbn [loop_body_of before_check timeout_of accepts_of
                   valid_response_of build_dir_of];
    unfold CanUpdateScript.loop_body, CanUpdateScript1.loop_body,
      try_except, bind; cbn [logging];
    destruct (Script.check_update_sleep _ _ _ _ _) as [[sg|e] w'];
    try reflexivity; destruct e; reflexivity.
Qed.

Lemma check_update_sleep_eq (s : script) (w : World) :
  Script.check_update_sleep (timeout_of s) (accepts_of s)
    (valid_response_of s) (build_dir_of s) w =
  match check_and_download_file w with
  | (Ret true, w1) =>
      match Script.update_process (timeout_of s) (accepts_of s)
              (valid_response_of s) (build_dir_of s) w1 with
      | (Ret Normal, w') =>
          (Ret Normal, set_clock (clock w' + DOWNLOAD_CHECK_INTERVAL) w')
      | r => r
      end
  | (Ret false, w1) =>
      (Ret Normal, set_clock (clock w1 + DOWNLOAD_CHECK_INTERVAL) w1)
  | (Raise e, w1) => (Raise e, w1)
  end.
Proof.
  unfold Script.check_update_sleep, bind.
  destruct (check_and_download_file w) as [[[|]|e] w1]; try reflexivity.
  destruct (Script.update_process _ _ _ _ w1) as [[[| |]|e] w'];
    reflexivity.
Qed.




Lemma update_process_eq (s : script) (w1 : World) :
  Script.update_process (timeout_of s) (accepts_of s) (valid_response_of s)
    (build_dir_of s) w1 =
  match setup_can_interface (add_log new_file_detected w1) with
  | (Ret true, w2) =>
      match send_can_message w2 with
      | (Ret true, w3) =>
          match wait_for_response_of s w3 with
          | (Ret true, w4) =>
              match Script.send_update_command (build_dir_of s) w4 with
              | (Ret true, w5) =>
                  (Ret Normal,
                   add_log (LogInfo "Update process completed successfully")
                           w5)
              | (Ret false, w5) =>
                  (Ret Continue,
                   add_log (LogError "Failed to send update command" None) w5)
              | (Raise e, w5) => (Raise e, w5)
              end
          | (Ret false, w4) =>
              (Ret Continue,
               add_log (LogError "Did not receive valid response" None) w4)
          | (Raise e, w4) => (Raise e, w4)
          end
      | (Ret false, w3) =>
          (Ret Continue,
           add_log (LogError "Failed to send CAN message" None) w3)
      | (Raise e, w3) => (Raise e, w3)
      end
  | (Ret false, w2) =>
      (Ret Continue, add_log (LogError "Failed to setup CAN interface" None) w2)
  | (Raise e, w2) => (Raise e, w2)
  end.
Proof.
  rewrite wait_for_response_of_eq.
  unfold Script.update_process, bind, new_file_detected. cbn [logging].
  destruct (setup_can_interface _) as [[[|]|e] w2]; try reflexivity.
  cbn [negb].
  destruct (send_can_message w2) as [[[|]|e] w3]; try reflexivity.
  cbn [negb].
  destruct (Script.wait_for_response _ _ _ w3) as [[[|]|e] w4];
    try reflexivity.
  cbn [negb].
  destruct (Script.send_update_command _ w4) as [[[|]|e] w5]; reflexivity.
Qed.

(** A stage that answers [False] ends the round on the spot: the round
    logs the line of that stage and completes by [continue] in the world
    the stage left, so that no later stage runs and the pause of
    [DOWNLOAD_CHECK_INTERVAL] is not taken. *)
Theorem failed_stage_ends_round :
  forall (s : script) (w w1 w' : World) (msg : string),
    check_and_download_file (before_check s w) = (Ret true, w1) ->
    stops_at s w1 w' msg ->
    loop_body_of s w = (Ret Continue, add_log (LogError msg None) w').
Proof.
  intros s w w1 w' msg Hc Hs.
  rewrite loop_body_of_eq, check_update_sleep_eq, Hc, update_process_eq.
  destruct Hs as [w2 E1|w2 w3 E1 E2|w2 w3 w4 E1 E2 E3|w2 w3 w4 w5 E1 E2 E3 E4];
    rewrite E1; try rewrite E2; try rewrite E3; try rewrite E4; reflexivity.
Qed.

Lemma failed_stage_ends_round_witness :
  loop_body_of SourceAddress updater_fails =
  (Ret Continue,
   add_log (LogError "Failed to send update command" None)
     (after_update SourceAddress updater_fails)).
Proof.
  apply (failed_stage_ends_round SourceAddress updater_fails
           (after_check SourceAddress updater_fails)).
  - reflexivity.
  - apply (StopsAtUpdate SourceAddress _
             (after_setup SourceAddress updater_fails)
             (after_send SourceAddress updater_fails)
             (after_wait SourceAddress updater_fails));
      vm_compute; reflexivity.
Defined.

(** A round in which the check and the four stages all answer [True] logs
    the completion and then pauses for [DOWNLOAD_CHECK_INTERVAL]: it
    completes normally in the world the updater left, 60 s later. *)
Theorem completed_round_pauses :
  forall (s : script) (w w1 w2 w3 w4 w5 : World),
    check_and_download_file (before_check s w) = (Ret true, w1) ->
    setup_can_interface (add_log new_file_detected w1) = (Ret true, w2) ->
    send_can_message w2 = (Ret true, w3) ->
    wait_for_response_of s w3 = (Ret true, w4) ->
    Script.send_update_command (build_dir_of s) w4 = (Ret true, w5) ->
    loop_body_of s w =
      (Ret Normal,
       set_clock (clock w5 + DOWNLOAD_CHECK_INTERVAL)
         (add_log (LogInfo "Update process completed successfully") w5)).
Proof.
  intros s w w1 w2 w3 w4 w5 E0 E1 E2 E3 E4.
  rewrite loop_body_of_eq, check_update_sleep_eq, E0, update_process_eq,
    E1, E2, E3, E4.
  reflexivity.
Qed.

Lemma completed_round_pauses_witness :
  loop_body_of SourceAddress fresh_and_acked =
    (Ret Normal,
     set_clock (clock (after_update SourceAddress fresh_and_acked)
                + DOWNLOAD_CHECK_INTERVAL)
       (add_log (LogInfo "Update process completed successfully")
          (after_update SourceAddress fresh_and_acked))) /\
  clock (after_update SourceAddress fresh_and_acked) = 2500.
Proof.
  split.
  - apply (completed_round_pauses SourceAddress fresh_and_acked
             (after_check SourceAddress fresh_and_acked)
             (after_setup SourceAddress fresh_and_acked)
             (after_send SourceAddress fresh_and_acked)
             (after_wait SourceAddress fresh_and_acked));
      vm_compute; reflexivity.
  - vm_compute. reflexivity.
Defined.

(** ** The clock *)

Lemma advances_ret {A : Type} (a : A) : advances (ret a).
Proof. intros w. cbn. lia. Qed.

Lemma advances_bind {A B : Type} (m : M A) (k : A -> M B) :
  advances m -> (forall a, advances (k a)) -> advances (bind m k).
Proof.
  intros Hm Hk w. unfold bind. specialize (Hm w).
  destruct (m w) as [[a|e] w1]; cbn in *; [|exact Hm].
  specialize (Hk a w1). lia.
Qed.

Lemma advances_try_except {A : Type}
      (body : M A) (catches : exn -> bool) (handler : exn -> M A) :
  advances body -> (forall e, advances (handler e)) ->
  advances (try_except body catches handler).
Proof.
  intros Hb Hh w. unfold try_except. specialize (Hb w).
  destruct (body w) as [[a|e] w1]; cbn in *; [exact Hb|].
  destruct (catches e); [|exact Hb].
  specialize (Hh e w1). lia.
Qed.

Lemma advances_logging (l : log_entry) : advances (logging l).
Proof. intros w. cbn. lia. Qed.

Lemma advances_time_sleep (ms : Z) : 0 <= ms -> advances (time_sleep ms).
Proof. intros H w. cbn. lia. Qed.

Lemma advances_subprocess_run (c : command) : advances (subprocess_run c).
Proof. intros w. cbn. lia. Qed.

Lemma advances_os_chdir (path : string) : advances (os_chdir path).
Proof. intros w. cbn. lia. Qed.

Lemma advances_Bus : advances Bus.
Proof. intros w. cbn. lia. Qed.

Lemma advances_bus_send (msg : Message) : advances (bus_send msg).
Proof. intros w. cbn. lia. Qed.

Lemma advances_check_and_download_file : advances check_and_download_file.
Proof. intros w. cbn. lia. Qed.

Lemma advances_wait_for_response timeout accepts valid_response :
  0 <= timeout ->
  advances (Script.wait_for_response timeout accepts valid_response).
Proof.
  intros H w.
  destruct (wait_for_response_clock timeout accepts valid_response w H)
    as (H1 & _). exact H1.
Qed.

Ltac advances_step :=
  first
    [ apply advances_ret
    | apply advances_logging
    | apply advances_time_sleep; lia
    | apply advances_subprocess_run
    | apply advances_os_chdir
    | apply advances_Bus
    | apply advances_bus_send
    | apply advances_check_and_download_file
    | apply advances_wait_for_response; assumption
    | apply advances_bind; [|intros ?]
    | apply advances_try_except; [|intros ?]
    | match goal with
      | |- advances (if ?b then _ else _) => destruct b
      | |- advances (match ?s with _ => _ end) => destruct s
      end ].

Lemma advances_update_process timeout accepts valid_response dir :
  0 <= timeout ->
  advances (Script.update_process timeout accepts valid_response dir).
Proof.
  intros H.
  unfold Script.update_process, setup_can_interface, send_can_message,
    Script.send_update_command.
  repeat advances_step.
Qed.

Lemma advances_check_update_sleep (s : script) :
  advances (Script.check_update_sleep (timeout_of s) (accepts_of s)
              (valid_response_of s) (build_dir_of s)).
Proof.
  pose proof (timeout_of_pos s) as Hpos.
  assert (0 <= timeout_of s) as H by lia.
  pose proof (advances_update_process (timeout_of s) (accepts_of s)
                (valid_response_of s) (build_dir_of s) H) as Hu.
  unfold Script.check_update_sleep, DOWNLOAD_CHECK_INTERVAL.
  repeat first [ apply Hu | advances_step ].
Qed.

(** Every round that completes normally has paused: whether it took no
    action, finished the update or ran into an unexpected exception, it
    ends at least [DOWNLOAD_CHECK_INTERVAL] (60 s) after it began. *)
Theorem normal_round_lasts_a_full_interval :
  forall (s : script) (w : World),
    fst (loop_body_of s w) = Ret Normal ->
    clock w + 60 * 1000 <= clock (snd (loop_body_of s w)).
Proof.
  intros s w. rewrite loop_body_of_eq.
  pose proof (advances_check_update_sleep s (before_check s w)) as Hadv.
  assert (clock (before_check s w) = clock w) as Hbc by (destruct s; reflexivity).
  rewrite check_update_sleep_eq in *.
  pose proof (advances_check_and_download_file (before_check s w)) as Hc.
  destruct (check_and_download_file (before_check s w)) as [[[|]|e] w1];
    cbn in Hc.
  - pose proof (advances_update_process (timeout_of s) (accepts_of s)
                  (valid_response_of s) (build_dir_of s)
                  ltac:(pose proof (timeout_of_pos s); lia) w1) as Hu.
    destruct (Script.update_process _ _ _ _ w1) as [[[| |]|e] w2];
      cbn in Hu |- *; try discriminate.
    + intros _. unfold DOWNLOAD_CHECK_INTERVAL. lia.
    + destruct s, e; cbn; try discriminate; intros _;
        unfold DOWNLOAD_CHECK_INTERVAL; lia.
  - cbn. intros _. unfold DOWNLOAD_CHECK_INTERVAL. lia.
  - destruct s, e; cbn; try discriminate; intros _;
      unfold DOWNLOAD_CHECK_INTERVAL; lia.
Qed.

Lemma normal_round_lasts_a_full_interval_witness :
  60000 <= clock (snd (loop_body_of PgnMask check_raises)).
Proof.
  apply (normal_round_lasts_a_full_interval PgnMask check_raises).
  reflexivity.
Defined.

(** ** Polling an empty bus *)

Lemma idled_iter_facts (n : nat) (w : World) :
  rx (Nat.iter n idled w) = rx w /\
  clock (Nat.iter n idled w) = clock w + 1000 * Z.of_nat n /\
  trace (Nat.iter n idled w) = trace w ++ repeat (IoBusRecv (Ret None)) n /\
  logs (Nat.iter n idled w) = logs w.
Proof.
  induction n as [|n (H1 & H2 & H3 & H4)].
  - cbn. rewrite app_nil_r. repeat split; lia.
  - rewrite Nat.iter_succ. remember (Nat.iter n idled w) as w' eqn:Hw' in *.
    unfold idled. cbn [rx clock trace logs emit set_clock].
    rewrite H1, H2, H3, H4. repeat split; try lia.
    rewrite <- app_assoc. f_equal. symmetry. apply repeat_cons.
Qed.

Lemma wait_loop_empty_bus timeout accepts valid_response (start_time : Z)
      (n : nat) :
  forall w,
    rx w = [] ->
    clock w = start_time + timeout - 1000 * Z.of_nat n ->
    Script.wait_loop timeout accepts valid_response start_time w =
    (Ret false, add_log deadline_warning (Nat.iter n idled w)).
Proof.
  induction n as [|n IH]; intros w Hq Hc; rewrite wait_loop_eq.
  - replace (clock w - start_time <? timeout) with false
      by (symmetry; apply Z.ltb_ge; lia).
    reflexivity.
  - replace (clock w - start_time <? timeout) with true
      by (symmetry; apply Z.ltb_lt; lia).
    unfold bus_recv. rewrite Hq. fold (idled w).
    rewrite IH;
      [|exact Hq|unfold idled; cbn [clock emit set_clock]; lia].
    rewrite <- Nat.iter_succ_r. reflexivity.
Qed.

(** On a bus that opens and stays empty, the wait polls exactly 120 times
    in the first script and 10 times in the second, one second each, and
    returns [False] exactly at the deadline, having logged the timeout
    warning. *)
Theorem empty_bus_is_polled_to_the_deadline :
  forall (s : script) (w : World),
    hd None (opens w) = None ->
    rx w = [] ->
    fst (wait_for_response_of s w) = Ret false /\
    trace (snd (wait_for_response_of s w)) =
      trace w ++ IoBusOpen None :: repeat (IoBusRecv (Ret None)) (polls_of s) /\
    clock (snd (wait_for_response_of s w)) = clock w + timeout_of s /\
    logs (snd (wait_for_response_of s w)) = logs w ++ [deadline_warning].
Proof.
  intros s w Ho Hq.
  rewrite wait_for_response_of_eq, wait_for_response_eq, Ho.
  rewrite (wait_loop_empty_bus (timeout_of s) (accepts_of s)
             (valid_response_of s) (clock w) (polls_of s));
    [|exact Hq|destruct s; cbn; lia].
  destruct (idled_iter_facts (polls_of s) (opened w)) as (_ & H2 & H3 & H4).
  cbn [fst snd]. split; [reflexivity|].
  change (trace (add_log deadline_warning (Nat.iter (polls_of s) idled (opened w))))
    with (trace (Nat.iter (polls_of s) idled (opened w))).
  change (clock (add_log deadline_warning (Nat.iter (polls_of s) idled (opened w))))
    with (clock (Nat.iter (polls_of s) idled (opened w))).
  change (logs (add_log deadline_warning (Nat.iter (polls_of s) idled (opened w))))
    with (logs (Nat.iter (polls_of s) idled (opened w)) ++ [deadline_warning]).
  rewrite H2, H3, H4. cbn [trace opened emit clock set_opens logs].
  rewrite Ho, <- app_assoc. repeat split; try reflexivity.
  destruct s; cbn; lia.
Qed.

Lemma empty_bus_is_polled_to_the_deadline_witness :
  clock (snd (wait_for_response_of PgnMask no_answer)) = 10000 /\
  logs (snd (wait_for_response_of PgnMask no_answer)) = [deadline_warning].
Proof.
  destruct (empty_bus_is_polled_to_the_deadline PgnMask no_answer)
    as (_ & _ & H3 & H4).
  - reflexivity.
  - reflexivity.
  - split; [exact H3|exact H4].
Defined.

(** ** Keyboard interrupt *)

(** A keyboard interrupt during the freshness check ends the first script
    in an orderly way, whatever the number of rounds still allowed: [main]
    logs that it was stopped by the user and returns, having made one check
    and no other call.  The second script has no such handler: the
    interrupt leaves [main] as an exception. *)
Theorem keyboard_interrupt_stops_main :
  forall (n : nat) (w : World),
    hd (Ret false) (checks w) = Raise KeyboardInterrupt ->
    fst (CanUpdateScript.main (S n) w) = Ret tt /\
    logs (snd (CanUpdateScript.main (S n) w)) =
      logs w ++ [LogInfo "Starting CAN update script";
                 LogInfo "Checking for new file...";
                 LogInfo "Script stopped by user"] /\
    trace (snd (CanUpdateScript.main (S n) w)) =
      trace w ++ [IoCheck (clock w) (Raise KeyboardInterrupt)] /\
    fst (CanUpdateScript1.main (S n) w) = Raise KeyboardInterrupt /\
    trace (snd (CanUpdateScript1.main (S n) w)) =
      trace w ++ [IoCheck (clock w) (Raise KeyboardInterrupt)].
Proof.
  intros n w H.
  assert (forall w0,
             checks w0 = checks w ->
             loop_body_of SourceAddress w0 =
             (Ret Break,
              add_log (LogInfo "Script stopped by user")
                (emit (IoCheck (clock w0) (Raise KeyboardInterrupt))
                   (set_checks (tl (checks w0))
                      (add_log (LogInfo "Checking for new file...") w0)))))
    as E1.
  { intros w0 Hw0. rewrite loop_body_of_eq, check_update_sleep_eq.
    unfold check_and_download_file. cbn [before_check checks add_log].
    rewrite Hw0, H. reflexivity. }
  assert (loop_body_of PgnMask w =
          (Raise KeyboardInterrupt,
           emit (IoCheck (clock w) (Raise KeyboardInterrupt))
             (set_checks (tl (checks w)) w))) as E2.
  { rewrite loop_body_of_eq, check_update_sleep_eq.
    unfold check_and_download_file. cbn [before_check].
    rewrite H. reflexivity. }
  cbn [loop_body_of] in E1, E2.
  unfold CanUpdateScript.main, CanUpdateScript1.main.
  cbn [iterate]. unfold bind. cbn [logging].
  rewrite E1 by reflexivity. rewrite E2. cbn.
  rewrite <- !app_assoc. repeat split; reflexivity.
Qed.

Lemma keyboard_interrupt_stops_main_witness :
  fst (CanUpdateScript.main 5 interrupted_check) = Ret tt /\
  fst (CanUpdateScript1.main 5 interrupted_check) = Raise KeyboardInterrupt.
Proof.
  destruct (keyboard_interrupt_stops_main 4 interrupted_check)
    as (H1 & _ & _ & H4 & _).
  - reflexivity.
  - split; [exact H1|exact H4].
Defined.

(** ** Errors during the wait *)

Lemma wait_loop_first_raise timeout accepts valid_response
      (start_time : Z) (w : World) :
  forall pre t ev e post,
    rx w = pre ++ (t, ev) :: post ->
    Forall (fun p => rejected accepts p /\ fst p < start_time + timeout) pre ->
    t < start_time + timeout ->
    raises accepts ev e ->
    clock w < start_time + timeout ->
    fst (Script.wait_loop timeout accepts valid_response start_time w)
      = Raise e /\
    rx (snd (Script.wait_loop timeout accepts valid_response start_time w))
      = post /\
    clock (snd (Script.wait_loop timeout accepts valid_response start_time w))
      < start_time + timeout /\
    logs (snd (Script.wait_loop timeout accepts valid_response start_time w))
      = logs w.
Proof.
  apply (wait_loop_rounds timeout accepts valid_response start_time
           (fun w res =>
              forall pre t ev e post,
                rx w = pre ++ (t, ev) :: post ->
                Forall (fun p => rejected accepts p /\
                                 fst p < start_time + timeout) pre ->
                t < start_time + timeout ->
                raises accepts ev e ->
                clock w < start_time + timeout ->
                fst res = Raise e /\
                rx (snd res) = post /\
                clock (snd res) < start_time + timeout /\
                logs (snd res) = logs w)).
  - intros; lia.
  - intros w0 t e rest _ Hq _ pre t' ev e' post E F Ht' Hr Hnow.
    rewrite Hq in E. destruct pre as [|p pre].
    + inversion E; subst.
      destruct Hr as [Hr|(m & Hr & _)]; [|discriminate].
      inversion Hr; subst. cbn. repeat split; try reflexivity. lia.
    + inversion E; subst. inversion F as [|? ? [(m' & E' & _) _] _]; subst.
      discriminate.
  - intros w0 Hc Hlate IH pre t ev e post E F Ht Hr Hnow.
    assert (clock (idled w0) < start_time + timeout) as Hnow'.
    { cbn. destruct pre as [|[t1 ev1] pre].
      - specialize (Hlate _ _ _ E). lia.
      - specialize (Hlate _ _ _ E).
        inversion F as [|? ? [_ Hlt] _]; subst. cbn in Hlt. lia. }
    specialize (IH pre t ev e post E F Ht Hr Hnow'). cbn in IH. exact IH.
  - intros w0 t m rest e _ Hq _ Ha pre t' ev e' post E F Ht' Hr Hnow.
    rewrite Hq in E. destruct pre as [|p pre].
    + inversion E; subst.
      destruct Hr as [Hr|(m' & Hr & Ha')]; [discriminate|].
      inversion Hr; subst. rewrite Ha in Ha'. inversion Ha'; subst.
      cbn. repeat split; try reflexivity. lia.
    + inversion E; subst.
      inversion F as [|? ? [(m2 & E2 & Ha2) _] _]; subst. cbn in E2.
      inversion E2; subst. congruence.
  - intros w0 t m rest _ Hq _ Ha pre t' ev e' post E F Ht' Hr Hnow.
    rewrite Hq in E. destruct pre as [|p pre].
    + inversion E; subst.
      destruct Hr as [Hr|(m' & Hr & Ha')]; [discriminate|].
      inversion Hr; subst. congruence.
    + inversion E; subst.
      inversion F as [|? ? [(m2 & E2 & Ha2) _] _]; subst. cbn in E2.
      inversion E2; subst. congruence.
  - intros w0 t m rest _ Hq _ Ha IH pre t' ev e' post E F Ht' Hr Hnow.
    rewrite Hq in E. destruct pre as [|p pre].
    + inversion E; subst.
      destruct Hr as [Hr|(m' & Hr & Ha')]; [discriminate|].
      inversion Hr; subst. congruence.
    + inversion E; subst. inversion F as [|? ? [_ Hlt] F']; subst.
      cbn in Hlt.
      pose proof (IH pre t' ev e' post eq_refl F' Ht' Hr) as IH'.
      cbn in IH'. apply IH'. lia.
Qed.

(** The first event on which the wait raises, a failing [recv] or a frame
    on which the test itself raises, ends the wait before the deadline:
    an [Exception] is caught and turned into [False] with an error line in
    the log, a keyboard interrupt passes through; what follows on the bus,
    an acknowledgement included, stays unread. *)
Theorem first_error_ends_wait :
  forall (s : script) (w : World) (pre : list (Z * rx_event)) (t : Z)
         (ev : rx_event) (e : exn) (post : list (Z * rx_event)),
    hd None (opens w) = None ->
    rx w = pre ++ (t, ev) :: post ->
    Forall (fun p => rejected (accepts_of s) p /\
                     fst p < clock w + timeout_of s) pre ->
    t < clock w + timeout_of s ->
    raises (accepts_of s) ev e ->
    fst (wait_for_response_of s w) = verdict is_Exception (Some e) /\
    rx (snd (wait_for_response_of s w)) = post /\
    clock (snd (wait_for_response_of s w)) < clock w + timeout_of s /\
    logs (snd (wait_for_response_of s w)) =
      logs w ++ (if is_Exception e then [wait_error e] else []).
Proof.
  intros s w pre t ev e post Ho Hq F Ht Hr.
  pose proof (timeout_of_pos s) as Hpos.
  assert (clock (opened w) < clock w + timeout_of s) as Hnow by (cbn; lia).
  pose proof (wait_loop_first_raise (timeout_of s) (accepts_of s)
                (valid_response_of s) (clock w) (opened w)
                pre t ev e post Hq F Ht Hr Hnow) as H.
  rewrite wait_for_response_of_eq, wait_for_response_eq, Ho.
  destruct (Script.wait_loop _ _ _ (clock w) (opened w)) as [[b|e'] w'];
    cbn in H; destruct H as (E & H2 & H3 & H4); [discriminate|].
  inversion E; subst e'. unfold verdict.
  destruct (is_Exception e); cbn; rewrite ?H4, ?app_nil_r;
    repeat split; assumption || reflexivity.
Qed.

Lemma first_error_ends_wait_witness :
  fst (wait_for_response_of SourceAddress fault_before_ack) = Ret false /\
  rx (snd (wait_for_response_of SourceAddress fault_before_ack)) =
    [(900, frame 0x18FF1403 [1; 0; 0; 0; 0; 0; 0; 0])].
Proof.
  destruct (first_error_ends_wait SourceAddress fault_before_ack
              [(300, frame 0x18FF1401 [0; 0; 0; 0; 0; 0; 0; 0])]
              800 (RxFault CanError) CanError
              [(900, frame 0x18FF1403 [1; 0; 0; 0; 0; 0; 0; 0])])
    as (H1 & H2 & _).
  - reflexivity.
  - reflexivity.
  - constructor; [|constructor]. split; [|reflexivity].
    eexists. split; reflexivity.
  - reflexivity.
  - left. reflexivity.
  - split; [exact H1|exact H2].
Defined.

(** When the bus cannot be opened, the wait does not poll and takes no
    time: it logs the error and returns [False] at once (a keyboard
    interrupt passes through). *)
Theorem wait_without_bus_returns_at_once :
  forall (s : script) (w : World) (e : exn),
    hd None (opens w) = Some e ->
    fst (wait_for_response_of s w) = verdict is_Exception (Some e) /\
    trace (snd (wait_for_response_of s w)) = trace w ++ [IoBusOpen (Some e)] /\
    clock (snd (wait_for_response_of s w)) = clock w /\
    rx (snd (wait_for_response_of s w)) = rx w.
Proof.
  intros s w e Ho.
  rewrite wait_for_response_of_eq, wait_for_response_eq, Ho. unfold verdict.
  destruct (is_Exception e); cbn; rewrite Ho; repeat split; reflexivity.
Qed.

Lemma wait_without_bus_returns_at_once_witness :
  fst (wait_for_response_of PgnMask bus_down) = Ret false /\
  clock (snd (wait_for_response_of PgnMask bus_down)) = 0.
Proof.
  destruct (wait_without_bus_returns_at_once PgnMask bus_down CanError)
    as (H1 & _ & H3 & _).
  - reflexivity.
  - split; [exact H1|exact H3].
Defined.

(** * Properties of the freshness check *)

Module FreshnessFacts.
Import Freshness.

Ltac host_unfold :=
  unfold check_and_download_file_of,
    CanUpdateScript.check_and_download_file,
    CanUpdateScript1.check_and_download_file,
    CanUpdateScript1.should_download,
    except_RequestException, hbind, hret, logging_note, requests_head,
    requests_get, raise_for_status, os_path_exists, os_path_getmtime,
    write_file, os_utime, datetime_strptime, utcfromtimestamp, fromtimestamp,
    timestamp in *.

Ltac host_status :=
  unfold status_ok;
  repeat match goal with
         | H : (_ <=? _) = _ |- _ => rewrite H
         | H : (_ <? _) = _ |- _ => rewrite H
         end;
  reflexivity.

Ltac host_case :=
  match goal with
  | |- context [match ?x with _ => _ end] => is_var x; destruct x
  | |- context [if ?x then _ else _] => is_var x; destruct x
  | |- context [fst ?x] => is_var x; destruct x
  | |- context [String.eqb ?s ""] => destruct (String.eqb s "") eqn:?
  | |- context [strptime ?P ?s] => destruct (strptime P s) eqn:?
  | |- context [?a <? ?b] => destruct (a <? b) eqn:?
  | |- context [?a <=? ?b] => destruct (a <=? b) eqn:?
  end.

Ltac host_cases := cbn; repeat (host_case; cbn).

(** [check_and_download_file] answers [True] only after a [requests.get]
    that succeeded with a status [raise_for_status] lets pass, and the
    local file then holds the content of that response. *)
Theorem check_true_means_downloaded :
  forall (s : script) (P : Platform) (h : Host),
    fst (check_and_download_file_of s P h) = Done true ->
    exists status data t,
      get_answer (site h) = Done (status, data) /\
      status_ok status = true /\
      file (snd (check_and_download_file_of s P h)) = Some (mkFile t data).
Proof.
  intros s P h. destruct h as [n [ha ga] f wr rq nt].
  destruct s; host_unfold; unfold truthy; host_cases;
    intros E; try discriminate E;
    eexists _, _, _; (split; [reflexivity|split; [host_status|reflexivity]]).
Qed.

Lemma check_true_means_downloaded_witness :
  exists status data t,
    get_answer dated_site = Done (status, data) /\
    status_ok status = true /\
    file (snd (check_and_download_file_of SourceAddress one_hour_east
                 (fresh_host dated_site))) = Some (mkFile t data).
Proof.
  apply (check_true_means_downloaded SourceAddress one_hour_east
           (fresh_host dated_site)).
  reflexivity.
Defined.

(** An answer [False] means that nothing was written: the local file is as
    it was.  And no [RequestException] leaves the function; a failed
    request or an HTTP error status is logged and answered by [False]. *)
Theorem check_false_leaves_file :
  forall (s : script) (P : Platform) (h : Host),
    (fst (check_and_download_file_of s P h) = Done false ->
     file (snd (check_and_download_file_of s P h)) = file h) /\
    fst (check_and_download_file_of s P h) <> Fails RequestException.
Proof.
  intros s P h. destruct h as [n [ha ga] f wr rq nt].
  destruct s; host_unfold; unfold truthy; host_cases;
    (split; [intros E; try discriminate E; reflexivity|discriminate]).
Qed.

(** A request that raises [RequestException], or a download answered with
    an HTTP error status, gives [False]. *)
Theorem failed_request_gives_false :
  forall (s : script) (P : Platform) (h : Host),
    head_answer (site h) = Fails RequestException \/
    (file h = None /\
     exists v status data,
       head_answer (site h) = Done v /\
       get_answer (site h) = Done (status, data) /\
       status_ok status = false) ->
    fst (check_and_download_file_of s P h) = Done false /\
    file (snd (check_and_download_file_of s P h)) = file h.
Proof.
  intros s P h. destruct h as [n [ha ga] f wr rq nt]. cbn.
  intros [->|(-> & v & st & data & -> & -> & Hs)].
  - destruct s; host_unfold; cbn; split; reflexivity.
  - unfold status_ok in Hs. apply negb_false_iff in Hs.
    destruct s; host_unfold; unfold truthy; cbn;
      repeat match goal with
             | |- context [match ?x with _ => _ end] => is_var x; destruct x; cbn
             | |- context [String.eqb ?s ""] =>
                 destruct (String.eqb s ""); cbn
             end;
      rewrite ?Hs; cbn; split; reflexivity.
Qed.

Lemma failed_request_gives_false_witness :
  fst (check_and_download_file_of PgnMask one_hour_east
         (fresh_host (mkSite (Done None) (Done (404, []))))) = Done false.
Proof.
  destruct (failed_request_gives_false PgnMask one_hour_east
              (fresh_host (mkSite (Done None) (Done (404, [])))))
    as (H1 & _).
  - right. split; [reflexivity|].
    exists None, 404, []. repeat split; reflexivity.
  - exact H1.
Defined.

(** ** [can-update-script.py] *)

(** When the server sends no last-modified header (or an empty one), the
    first script downloads on every check, whatever file it already has:
    it sends the GET, and when that succeeds and the file can be written
    it stores the content under the current time and answers [True]. *)
Theorem no_header_always_downloads :
  forall (P : Platform) (h : Host) (v : option string) (status : Z)
         (data : list Z),
    head_answer (site h) = Done v ->
    truthy v = false ->
    get_answer (site h) = Done (status, data) ->
    status_ok status = true ->
    writable h = true ->
    fst (CanUpdateScript.check_and_download_file P h) = Done true /\
    file (snd (CanUpdateScript.check_and_download_file P h)) =
      Some (mkFile (now h) data) /\
    requests (snd (CanUpdateScript.check_and_download_file P h)) =
      requests h ++ [Head true; Get true] /\
    site (snd (CanUpdateScript.check_and_download_file P h)) = site h /\
    now (snd (CanUpdateScript.check_and_download_file P h)) = now h /\
    writable (snd (CanUpdateScript.check_and_download_file P h)) = true.
Proof.
  intros P h v st data Hh Hv Hg Hs Hw.
  destruct h as [n [ha ga] f wr rq nt]. cbn in *. subst.
  unfold status_ok in Hs. apply negb_true_iff in Hs.
  host_unfold. cbn. rewrite Hv. cbn. rewrite Hs. cbn.
  rewrite <- app_assoc. repeat split; reflexivity.
Qed.

Lemma no_header_always_downloads_witness :
  fst (CanUpdateScript.check_and_download_file one_hour_east
         (stocked_host undated_site)) = Done true /\
  file (snd (CanUpdateScript.check_and_download_file one_hour_east
               (stocked_host undated_site))) =
    Some (mkFile 1445472002 [7; 7]).
Proof.
  destruct (no_header_always_downloads one_hour_east
              (stocked_host undated_site) None 200 [7; 7])
    as (H1 & H2 & _);
    [reflexivity|reflexivity|reflexivity|reflexivity|reflexivity|].
  split; [exact H1|exact H2].
Defined.








(** A header that is not empty and does not parse is noticed by the first
    script only where it parses it.  With no file yet, that is after the
    download: the file is written under the current time, and then the
    [ValueError] leaves the function, which answers neither [True] nor
    [False]. *)
Theorem bad_header_raises_after_download :
  forall (P : Platform) (h : Host) (v : string) (status : Z) (data : list Z),
    file h = None ->
    head_answer (site h) = Done (Some v) ->
    v <> "" ->
    strptime P v = None ->
    get_answer (site h) = Done (status, data) ->
    status_ok status = true ->
    writable h = true ->
    fst (CanUpdateScript.check_and_download_file P h) = Fails ValueError /\
    file (snd (CanUpdateScript.check_and_download_file P h)) =
      Some (mkFile (now h) data).
Proof.
  intros P h v st data Hf Hh Hv Hd Hg Hs Hw.
  destruct h as [n [ha ga] f wr rq nt]. cbn in *. subst.
  apply String.eqb_neq in Hv.
  unfold status_ok in Hs. apply negb_true_iff in Hs.
  host_unfold. unfold truthy. cbn. rewrite Hv. cbn. rewrite Hs. cbn.
  rewrite Hd. cbn. split; reflexivity.
Qed.

Lemma bad_header_raises_after_download_witness :
  fst (CanUpdateScript.check_and_download_file one_hour_east
         (fresh_host (mkSite (Done (Some "yesterday")) (Done (200, [7; 7])))))
    = Fails ValueError.
Proof.
  destruct (bad_header_raises_after_download one_hour_east
              (fresh_host (mkSite (Done (Some "yesterday"))
                                  (Done (200, [7; 7]))))
              "yesterday" 200 [7; 7])
    as (H1 & _);
    [reflexivity|reflexivity|discriminate|reflexivity|reflexivity
    |reflexivity|reflexivity|].
  exact H1.
Defined.

(** ** [can-update-script (1).py] *)

(** With no file yet, the second script downloads without looking at the
    last-modified header, be it missing or malformed: it sends the GET and,
    when that succeeds and the file can be written, stores the content
    under the current time and answers [True]. *)
Theorem missing_file_is_downloaded_unseen :
  forall (P : Platform) (h : Host) (v : option string) (status : Z)
         (data : list Z),
    file h = None ->
    head_answer (site h) = Done v ->
    get_answer (site h) = Done (status, data) ->
    status_ok status = true ->
    writable h = true ->
    fst (CanUpdateScript1.check_and_download_file P h) = Done true /\
    file (snd (CanUpdateScript1.check_and_download_file P h)) =
      Some (mkFile (now h) data) /\
    requests (snd (CanUpdateScript1.check_and_download_file P h)) =
      requests h ++ [Head false; Get false].
Proof.
  intros P h v st data Hf Hh Hg Hs Hw.
  destruct h as [n [ha ga] f wr rq nt]. cbn in *. subst.
  unfold status_ok in Hs. apply negb_true_iff in Hs.
  host_unfold. cbn. rewrite Hs. cbn.
  rewrite <- app_assoc. repeat split; reflexivity.
Qed.

Lemma missing_file_is_downloaded_unseen_witness :
  fst (CanUpdateScript1.check_and_download_file one_hour_east
         (fresh_host undated_site)) = Done true.
Proof.
  destruct (missing_file_is_downloaded_unseen one_hour_east
              (fresh_host undated_site) None 200 [7; 7])
    as (H1 & _);
    [reflexivity|reflexivity|reflexivity|reflexivity|reflexivity|].
  exact H1.
Defined.

(** With a file in place, the second script cannot do without a
    well-formed header: a missing header makes [strptime] raise
    [TypeError], a malformed one [ValueError], and neither is caught by
    the function.  No GET is sent and the file stays as it is. *)
Theorem unreadable_header_raises :
  forall (P : Platform) (h : Host) (f : File) (v : option string),
    file h = Some f ->
    head_answer (site h) = Done v ->
    match v with
    | Some s => strptime P s = None
    | None => True
    end ->
    fst (CanUpdateScript1.check_and_download_file P h) =
      Fails (match v with Some _ => ValueError | None => TypeError end) /\
    requests (snd (CanUpdateScript1.check_and_download_file P h)) =
      requests h ++ [Head false] /\
    file (snd (CanUpdateScript1.check_and_download_file P h)) = Some f.
Proof.
  intros P h f v Hf Hh Hv.
  destruct h as [n [ha ga] f0 wr rq nt]. cbn in *. subst.
  host_unfold. cbn. destruct v as [s|]; cbn; rewrite ?Hv; cbn;
    repeat split; reflexivity.
Qed.

Lemma unreadable_header_raises_witness :
  fst (CanUpdateScript1.check_and_download_file one_hour_east
         (stocked_host undated_site)) = Fails TypeError.
Proof.
  destruct (unreadable_header_raises one_hour_east
              (stocked_host undated_site) (mkFile 1445400000 [1]) None)
    as (H1 & _); [reflexivity|reflexivity|exact I|].
  exact H1.
Defined.

(** The second script never sets the time of the file: after a download
    the file carries the time of the download.  The next check against the
    same server therefore downloads again exactly when the header's time is
    later than the time of the previous download read as local time. *)
Theorem recheck_compares_with_download_time :
  forall (P : Platform) (h : Host) (v : string) (d : Z),
    head_answer (site h) = Done (Some v) ->
    strptime P v = Some d ->
    fst (CanUpdateScript1.check_and_download_file P h) = Done true ->
    (exists data,
        file (snd (CanUpdateScript1.check_and_download_file P h)) =
          Some (mkFile (now h) data)) /\
    fst (CanUpdateScript1.check_and_download_file P
           (snd (CanUpdateScript1.check_and_download_file P h))) =
      Done (now h + utc_offset P <? d).
Proof.
  intros P h v d Hh Hd.
  destruct h as [n [ha ga] f wr rq nt]. cbn in Hh. subst ha.
  host_unfold. cbn.
  destruct f as [f|]; cbn; rewrite ?Hd; cbn;
    [destruct (mtime f + utc_offset P <? d); cbn|];
    try (intros E; discriminate E);
    (destruct ga as [[st data]|e]; cbn;
     [|destruct e; cbn; intros E; discriminate E]);
    (destruct ((400 <=? st) && (st <? 600)) eqn:Hs; cbn;
     [intros E; discriminate E|]);
    (destruct wr; cbn; [|intros E; discriminate E]);
    intros _; (split; [exists data; reflexivity|]);
    rewrite ?Hd; cbn;
    destruct (n + utc_offset P <? d); cbn; rewrite ?Hs; cbn; reflexivity.
Qed.

Lemma recheck_compares_with_download_time_witness :
  fst (CanUpdateScript1.check_and_download_file one_hour_east
         (snd (CanUpdateScript1.check_and_download_file one_hour_east
                 (fresh_host dated_site)))) = Done false.
Proof.
  destruct (recheck_compares_with_download_time one_hour_east
              (fresh_host dated_site)
              "Wed, 21 Oct 2015 07:28:00 GMT" 1445412480)
    as (_ & H2); [reflexivity|reflexivity|reflexivity|].
  exact H2.
Defined.

End FreshnessFacts.
